(** * Jawala business directory: offline cache and synchronisation layer

    A shallow embedding of the two pieces of the application that decide
    what a reader sees when the network misbehaves:

    - [ServiceWorker]: the handlers of [public/sw.js] (install, activate,
      fetch), over an explicit model of the browser's [CacheStorage];
    - [App]: the data-loading effect of the main component ([loadData] and
      the real-time change handler), over the in-memory view state, the
      Entity Cache and the Version Store.

    Promises are modelled by their settled outcome; the order in which the
    effects of a handler happen is kept as a trace. *)

From Stdlib Require Import String Ascii List Bool ZArith Lia.
From stdpp Require Import base option strings gmap.
Import ListNotations.

Local Open Scope string_scope.
Local Open Scope list_scope.
Local Open Scope Z_scope.

(** ** JavaScript values shared by both parts *)

(** The outcome of awaiting a promise of an [A]. *)
Inductive Settled (A : Type) : Type :=
| Fulfilled (value : A)
| Rejected (reason : string).
Arguments Fulfilled {A} value.
Arguments Rejected {A} reason.

(** [s.startsWith(p)] *)
Definition startsWith (s p : string) : bool := String.prefix p s.

(** [s.includes(sub)]: [sub] occurs at some position of [s]. *)
Fixpoint includes (s sub : string) : bool :=
  String.prefix sub s ||
  match s with
  | EmptyString => false
  | String _ rest => includes rest sub
  end.

(** * The service worker, [public/sw.js] *)
Module ServiceWorker.

(** A parsed request URL, [new URL(request.url)]: the handler reads
    [origin] and [pathname]; [search] completes the key of a cache entry. *)
Record URL : Type := mkURL {
  origin : string;
  pathname : string;
  search : string
}.

Record Request : Type := mkRequest {
  method : string;
  url : URL
}.

Record Response : Type := mkResponse {
  status : Z;
  body : string
}.

Definition url_eqb (u v : URL) : bool :=
  (origin u =? origin v)%string && (pathname u =? pathname v)%string
  && (search u =? search v)%string.

(** A [Cache]: stored responses keyed by request URL, oldest first.
    [CacheStorage] lists the named caches in creation order, which is the
    order [caches.match] searches them in. *)
Definition Cache : Type := list (URL * Response).
Definition CacheStorage : Type := list (string * Cache).

(** [cache.match(request)] *)
Fixpoint cache_match (c : Cache) (request : Request) : option Response :=
  match c with
  | [] => None
  | (u, response) :: rest =>
      if url_eqb u (url request) then Some response
      else cache_match rest request
  end.

(** [caches.match(request)]: the first hit over all caches, [None] standing
    for the [undefined] the promise resolves with when nothing matches. *)
Fixpoint caches_match (caches : CacheStorage) (request : Request)
  : option Response :=
  match caches with
  | [] => None
  | (_, c) :: rest =>
      match cache_match c request with
      | Some response => Some response
      | None => caches_match rest request
      end
  end.

(** The cache called [name], if it was ever opened. *)
Fixpoint caches_get (caches : CacheStorage) (name : string) : option Cache :=
  match caches with
  | [] => None
  | (n, c) :: rest =>
      if (n =? name)%string then Some c else caches_get rest name
  end.

(** [caches.keys()] *)
Definition caches_keys (caches : CacheStorage) : list string :=
  map fst caches.

(** [caches.delete(name)] *)
Definition caches_delete (name : string) (caches : CacheStorage)
  : CacheStorage :=
  List.filter (fun entry => negb (fst entry =? name)%string) caches.

(** [cache.put(request, response)]: any entry stored for the request is
    dropped and the new one is added. *)
Definition cache_put (request : Request) (response : Response) (c : Cache)
  : Cache :=
  List.filter (fun entry => negb (url_eqb (fst entry) (url request))) c
  ++ [(url request, response)].

(** [caches.open(name).then(cache => f(cache))]: the cache is created, last
    in creation order, when it does not exist yet. *)
Fixpoint caches_update (name : string) (f : Cache -> Cache)
  (caches : CacheStorage) : CacheStorage :=
  match caches with
  | [] => [(name, f [])]
  | (n, c) :: rest =>
      if (n =? name)%string then (n, f c) :: rest
      else (n, c) :: caches_update name f rest
  end.

(** What the runtime cache holds for a request. *)
Definition stored_in (name : string) (caches : CacheStorage)
  (request : Request) : option Response :=
  match caches_get caches name with
  | Some c => cache_match c request
  | None => None
  end.

Definition CACHE_NAME : string := "jawala-business-v1".
Definition RUNTIME_CACHE : string := "jawala-runtime-v1".

(** The outcome of [fetch(request)]: a response of any status, or a
    rejection (the network is unreachable). *)
Definition Network : Type := Request -> Settled Response.

(** The effects of a handler, in the order they happen.  [Respond] is the
    moment the promise given to [event.respondWith] settles; [None] inside
    it is [undefined]. *)
Inductive Event : Type :=
| CachesMatch (request : Request)
| Fetch (request : Request)
| Respond (outcome : Settled (option Response))
| CachePut (name : string) (request : Request) (response : Response).

(** [if (response && response.status === 200) { caches.open(RUNTIME_CACHE)
    .then((cache) => { cache.put(request, responseClone); }); }]

    The promise of [caches.open] is neither returned nor awaited: its
    callback, and so the [put], runs in a later job than the [return
    response] that follows it, hence after [Respond] in the trace. *)
Definition write_through (request : Request) (response : Response)
  : list Event :=
  if status response =? 200
  then [CachePut RUNTIME_CACHE request response]
  else [].

(** [url.pathname.startsWith('/api/') || url.pathname.includes('assets/index-')
    || url.pathname.includes('assets/cacheService-')] *)
Definition network_first (u : URL) : bool :=
  startsWith (pathname u) "/api/"
  || includes (pathname u) "assets/index-"
  || includes (pathname u) "assets/cacheService-".

(** The [fetch] listener.  An empty trace is a handler that returned
    without calling [event.respondWith]: the browser then performs the
    request itself, as if no worker were installed. *)
Definition on_fetch (caches : CacheStorage) (net : Network)
  (request : Request) : list Event :=
  if negb (method request =? "GET")%string then []
  else if includes (origin (url request)) "supabase.co" then []
  else if network_first (url request) then
    Fetch request ::
    match net request with
    | Fulfilled response =>
        Respond (Fulfilled (Some response)) :: write_through request response
    | Rejected _ =>
        [CachesMatch request;
         Respond (Fulfilled (caches_match caches request))]
    end
  else
    CachesMatch request ::
    match caches_match caches request with
    | Some cachedResponse => [Respond (Fulfilled (Some cachedResponse))]
    | None =>
        Fetch request ::
        match net request with
        | Fulfilled response =>
            Respond (Fulfilled (Some response))
            :: write_through request response
        | Rejected reason => [Respond (Rejected reason)]
        end
    end.

(** Reading a trace. *)
Definition apply_event (caches : CacheStorage) (e : Event) : CacheStorage :=
  match e with
  | CachePut name request response =>
      caches_update name (cache_put request response) caches
  | _ => caches
  end.

Definition caches_after (caches : CacheStorage) (trace : list Event)
  : CacheStorage :=
  fold_left apply_event trace caches.

Fixpoint before_respond (trace : list Event) : list Event :=
  match trace with
  | [] => []
  | Respond _ :: _ => []
  | e :: rest => e :: before_respond rest
  end.

(** The caches as they are when the requester gets its answer. *)
Definition caches_when_answered (caches : CacheStorage) (trace : list Event)
  : CacheStorage :=
  caches_after caches (before_respond trace).

Fixpoint answer (trace : list Event) : option (Settled (option Response)) :=
  match trace with
  | [] => None
  | Respond outcome :: _ => Some outcome
  | _ :: rest => answer rest
  end.

Definition puts (trace : list Event) : list (string * Request * Response) :=
  flat_map (fun e => match e with
                     | CachePut name request response =>
                         [(name, request, response)]
                     | _ => []
                     end) trace.

(** The [activate] listener: every cache whose name is not one of the two
    current ones is deleted. *)
Definition on_activate (caches : CacheStorage) : CacheStorage :=
  fold_left (fun cs name => caches_delete name cs)
    (List.filter (fun name => negb (name =? CACHE_NAME)%string
                              && negb (name =? RUNTIME_CACHE)%string)
            (caches_keys caches))
    caches.


(** The [install] listener.  [PRECACHE_ASSETS] as the worker resolves them:
    the first three against its own origin, the others are absolute. *)
Definition PRECACHE_ASSETS (self_origin : string) : list URL :=
  [ mkURL self_origin "/" "";
    mkURL self_origin "/index.html" "";
    mkURL self_origin "/manifest.json" "";
    mkURL "https://cdn.tailwindcss.com" "/3.4.17" "";
    mkURL "https://cdnjs.cloudflare.com"
          "/ajax/libs/font-awesome/6.5.1/css/all.min.css" "";
    mkURL "https://fonts.googleapis.com" "/css2"
          "?family=Inter:wght@400;600;700&family=Noto+Sans+Devanagari:wght@400;600;700&display=swap" ].

(** [response.ok] *)
Definition ok (response : Response) : bool :=
  (200 <=? status response) && (status response <=? 299).

(** A response [cache.addAll] accepts: its status is ok and is not 206
    (partial content). *)
Definition addable (response : Response) : bool :=
  ok response && negb (status response =? 206).

(** The fetching half of [cache.addAll(urls)]: it rejects, storing nothing,
    as soon as one request fails or comes back with a response that is not
    [addable]. *)
Fixpoint fetch_all (net : Network) (urls : list URL)
  : option (list (Request * Response)) :=
  match urls with
  | [] => Some []
  | u :: rest =>
      let request := mkRequest "GET" u in
      match net request with
      | Fulfilled response =>
          if addable response
          then option_map (cons (request, response)) (fetch_all net rest)
          else None
      | Rejected _ => None
      end
  end.

Definition put_all (entries : list (Request * Response)) (c : Cache) : Cache :=
  fold_left (fun acc entry => cache_put (fst entry) (snd entry) acc) entries c.

(** [caches.open(CACHE_NAME).then((cache) => cache.addAll(PRECACHE_ASSETS))],
    a rejection being caught and logged. *)
Definition on_install (self_origin : string) (net : Network)
  (caches : CacheStorage) : CacheStorage :=
  match fetch_all net (PRECACHE_ASSETS self_origin) with
  | Some entries => caches_update CACHE_NAME (put_all entries) caches
  | None => caches_update CACHE_NAME (fun c => c) caches
  end.

(** The shape of the storage this worker builds: responses of network-first
    requests are only ever stored in the runtime cache. *)
Definition static_only (c : Cache) : bool :=
  forallb (fun entry => negb (network_first (fst entry))) c.

Definition runtime_holds_dynamic (caches : CacheStorage) : bool :=
  forallb (fun entry => (fst entry =? RUNTIME_CACHE)%string
                        || static_only (snd entry)) caches.

(** The storages the worker can be looking at: it starts with none of its
    caches and then installs, activates and answers fetches, the writes of
    a fetch having landed. *)
Inductive built (self_origin : string) : CacheStorage -> Prop :=
| built_nothing : built self_origin []
| built_install (net : Network) (caches : CacheStorage) :
    built self_origin caches ->
    built self_origin (on_install self_origin net caches)
| built_activate (caches : CacheStorage) :
    built self_origin caches ->
    built self_origin (on_activate caches)
| built_fetch (net : Network) (request : Request) (caches : CacheStorage) :
    built self_origin caches ->
    built self_origin (caches_after caches (on_fetch caches net request)).

(** The names of the two cache generations in use. *)
Definition current (name : string) : bool :=
  (name =? CACHE_NAME)%string || (name =? RUNTIME_CACHE)%string.

(** Every response the runtime cache holds has status 200. *)
Definition runtime_all_200 (caches : CacheStorage) : Prop :=
  forall request response,
    stored_in RUNTIME_CACHE caches request = Some response ->
    status response = 200.

(** Sample data: a storage after a first visit, and two networks. *)
Module Samples.

Definition app : string := "https://jawala.example".

Definition bundle : Request :=
  mkRequest "GET" (mkURL app "/assets/index-4f2a.js" "").
Definition logo : Request := mkRequest "GET" (mkURL app "/logo.png" "").
Definition rows : Request :=
  mkRequest "GET" (mkURL "https://abcd.supabase.co" "/rest/v1/businesses"
                     "?select=*").

Definition shell : Response := mkResponse 200 "<html>".
Definition script : Response := mkResponse 200 "bundle".
Definition image : Response := mkResponse 200 "png".
Definition missing : Response := mkResponse 404 "not found".

Definition visited : CacheStorage :=
  [ (CACHE_NAME, [(mkURL app "/" "", shell)]);
    (RUNTIME_CACHE, [(url bundle, script)]) ].

Definition fresh : CacheStorage := [ (CACHE_NAME, [(mkURL app "/" "", shell)]) ].

Definition legacy : CacheStorage :=
  ("jawala-business-v0", [(mkURL app "/" "", shell)]) :: visited.

Definition offline : Network := fun _ => Rejected "Failed to fetch".
Definition online : Network := fun _ => Fulfilled image.
Definition gone : Network := fun _ => Fulfilled missing.

End Samples.

End ServiceWorker.

(** * The application's data loading, [App.tsx] with [cacheService] *)
Module App.

Inductive PaymentOption : Type := UPI | Cash | Card.

Record Business : Type := mkBusiness {
  id : string;
  shopName : string;
  ownerName : string;
  contactNumber : string;
  category : string;
  address : option string;
  openingHours : option string;
  homeDelivery : option bool;
  paymentOptions : option (list PaymentOption);
  services : option (list string)
}.

Record Category : Type := mkCategory {
  category_id : string;
  name : string;
  icon : string
}.

(** The component's [businessData] state. *)
Record BusinessData : Type := mkBusinessData {
  categories : list Category;
  businesses : list Business
}.

(** What [SupabaseService.getDataVersion()] resolves with, and the record
    [{ ...version, last_sync: Date.now() }] the application stores. *)
Record DataVersion : Type := mkDataVersion {
  businessCount : Z;
  categoryCount : Z;
  fingerprint : string
}.

Record LocalVersion : Type := mkLocalVersion {
  version : DataVersion;
  last_sync : Z
}.

(** Modelled from the spec: [cacheService] is imported by [App.tsx] but is
    not among the sources.  The Entity Cache holds the two collections
    keyed by id; the Version Store holds at most one version record. *)
Record Stores : Type := mkStores {
  cachedBusinesses : gmap string Business;
  cachedCategories : gmap string Category;
  localVersion : option LocalVersion
}.

(** Modelled from the spec: [getBusinesses] and [getCategories] of the
    missing [cacheService], returning whatever is persisted. *)
Definition getCachedBusinesses (st : Stores) : list Business :=
  map snd (map_to_list (cachedBusinesses st)).

Definition getCachedCategories (st : Stores) : list Category :=
  map snd (map_to_list (cachedCategories st)).

(** Modelled from the spec: [upsertBusiness] of the missing [cacheService],
    insert if the id is unseen, else overwrite by id. *)
Definition updateCachedBusiness (b : Business) (st : Stores) : Stores :=
  mkStores (<[id b := b]> (cachedBusinesses st)) (cachedCategories st)
           (localVersion st).

(** Modelled from the spec: [deleteBusiness] of the missing [cacheService],
    a no-op if the id is unseen. *)
Definition deleteCachedBusiness (i : string) (st : Stores) : Stores :=
  mkStores (delete i (cachedBusinesses st)) (cachedCategories st)
           (localVersion st).

(** Modelled from the spec: [replaceAll] of the missing [cacheService], one
    bulk overwrite of both collections. *)
Definition replaceAll (data : BusinessData) (st : Stores) : Stores :=
  mkStores
    (fold_left (fun m b => <[id b := b]> m) (businesses data) ∅)
    (fold_left (fun m c => <[category_id c := c]> m) (categories data) ∅)
    (localVersion st).

(** Modelled from the spec: [set] of the Version Store in the missing
    [cacheService]. *)
Definition setLocalVersion (v : LocalVersion) (st : Stores) : Stores :=
  mkStores (cachedBusinesses st) (cachedCategories st) (Some v).

(** Asynchronous code over a state [S]: awaiting it either yields a value
    or throws, and leaves a state behind in both cases. *)
Definition Async (S A : Type) : Type := S -> Settled A * S.

Definition ret {S A : Type} (a : A) : Async S A := fun s => (Fulfilled a, s).

Definition bind {S A B : Type} (c : Async S A) (k : A -> Async S B)
  : Async S B :=
  fun s => match c s with
           | (Fulfilled a, s') => k a s'
           | (Rejected reason, s') => (Rejected reason, s')
           end.

(** [try { c } catch (error) { h(error) }] *)
Definition try_catch {S A : Type} (c : Async S A) (h : string -> Async S A)
  : Async S A :=
  fun s => match c s with
           | (Fulfilled a, s') => (Fulfilled a, s')
           | (Rejected reason, s') => h reason s'
           end.

(** Awaiting a promise whose outcome is known. *)
Definition await {S A : Type} (p : Settled A) : Async S A := fun s => (p, s).

Definition modify {S : Type} (f : S -> S) : Async S unit :=
  fun s => (Fulfilled tt, f s).

Notation "x <- c ;; k" := (bind c (fun x => k))
  (at level 100, c at next level, right associativity).
Notation "c ;; k" := (bind c (fun _ => k))
  (at level 100, right associativity).

Definition get {S : Type} : Async S S := fun s => (Fulfilled s, s).

(** The result of a synchronisation. *)
Inductive SyncAction : Type := no_change | synced.

Record SyncResult : Type := mkSyncResult {
  action : SyncAction;
  fromCache : bool;
  result_categories : list Category;
  result_businesses : list Business
}.

(** Versions are compared on (businessCount, categoryCount, fingerprint);
    an absent local version equals nothing. *)
Definition same_version (local : option LocalVersion) (remote : LocalVersion)
  : bool :=
  match local with
  | None => false
  | Some l =>
      (businessCount (version l) =? businessCount (version remote))
      && (categoryCount (version l) =? categoryCount (version remote))
      && (fingerprint (version l) =? fingerprint (version remote))%string
  end.

Definition from_cache : Async Stores SyncResult :=
  st <- get ;;
  ret (mkSyncResult no_change true
         (getCachedCategories st) (getCachedBusinesses st)).

(** Modelled from the spec: [smartSync] of the missing [cacheService].  The
    two capabilities are given by the outcome of calling them.  A failing
    [fetchVersion] falls back to the cache; an equal version skips the full
    fetch and refreshes the version record; otherwise the full payload is
    fetched and written through, a failure of that fetch falling back to
    the cache as the failure of the version fetch does. *)
Definition smartSync (fetchVersion : Settled LocalVersion)
  (fetchAll : Settled BusinessData) : Async Stores SyncResult :=
  try_catch
    (remote <- await fetchVersion ;;
     st <- get ;;
     if same_version (localVersion st) remote then
       (modify (setLocalVersion remote) ;; from_cache)
     else
       (data <- await fetchAll ;;
        modify (replaceAll data) ;;
        modify (setLocalVersion remote) ;;
        ret (mkSyncResult synced false (categories data) (businesses data))))
    (fun _ => from_cache).

(** The two capabilities [loadData] hands to [smartSync]:
    [async () => ({ ...await getDataVersion(), last_sync: Date.now() })] and
    [async () => { const [categories, businesses] = await Promise.all([...]);
    return { categories, businesses }; }], below. *)
Definition fetchVersion (getDataVersion : Settled DataVersion) (now : Z)
  : Settled LocalVersion :=
  match getDataVersion with
  | Fulfilled v => Fulfilled (mkLocalVersion v now)
  | Rejected reason => Rejected reason
  end.

(** [Promise.all] rejects with the rejection that comes first in time:
    [categoriesFirst] says, for the case that both requests fail, whether
    the one for the categories fails before the one for the businesses. *)
Definition fetchAll (categoriesFirst : bool)
  (fetchCategories : Settled (list Category))
  (fetchBusinesses : Settled (list Business)) : Settled BusinessData :=
  match fetchCategories, fetchBusinesses with
  | Fulfilled cs, Fulfilled bs => Fulfilled (mkBusinessData cs bs)
  | Rejected reason, Fulfilled _ => Rejected reason
  | Fulfilled _, Rejected reason => Rejected reason
  | Rejected first, Rejected second =>
      Rejected (if categoriesFirst then first else second)
  end.

(** What the component holds while it runs: its view state, the persisted
    stores behind [cacheService], and what was written to the console. *)
Record Session : Type := mkSession {
  businessData : BusinessData;
  stores : Stores;
  console : list string
}.

(** [setBusinessData(prev => f(prev))] *)
Definition setBusinessData (f : BusinessData -> BusinessData)
  : Async Session unit :=
  modify (fun s => mkSession (f (businessData s)) (stores s) (console s)).

(** [await CacheService.f(...)] *)
Definition cacheService (f : Stores -> Stores) : Async Session unit :=
  modify (fun s => mkSession (businessData s) (f (stores s)) (console s)).

(** [console.error(message, error)] *)
Definition console_error (message : string) : Async Session unit :=
  modify (fun s => mkSession (businessData s) (stores s)
                     (console s ++ [message])).

Section ChangeStream.

(** The rows the real-time channel delivers and their decoder belong to the
    backend client. *)
Context {RawRecord : Type}.
Variable dbBusinessToBusiness : RawRecord -> Business.

(** A change event; [old] is [payload.old.id] when [payload.old] is set. *)
Record Payload : Type := mkPayload {
  eventType : string;
  new : option RawRecord;
  old : option string
}.

(** The three branches on [payload.eventType]. *)
Definition apply_change (payload : Payload) : Async Session unit :=
  match (eventType payload =? "INSERT")%string, new payload with
  | true, Some raw =>
      let newBusiness := dbBusinessToBusiness raw in
      cacheService (updateCachedBusiness newBusiness) ;;
      setBusinessData (fun prev =>
        mkBusinessData (categories prev) (newBusiness :: businesses prev))
  | _, _ =>
  match (eventType payload =? "UPDATE")%string, new payload with
  | true, Some raw =>
      let updatedBusiness := dbBusinessToBusiness raw in
      cacheService (updateCachedBusiness updatedBusiness) ;;
      setBusinessData (fun prev =>
        mkBusinessData (categories prev)
          (map (fun b => if (id b =? id updatedBusiness)%string
                         then updatedBusiness else b)
               (businesses prev)))
  | _, _ =>
  match (eventType payload =? "DELETE")%string, old payload with
  | true, Some old_id =>
      cacheService (deleteCachedBusiness old_id) ;;
      setBusinessData (fun prev =>
        mkBusinessData (categories prev)
          (List.filter (fun b => negb (id b =? old_id)%string)
                       (businesses prev)))
  | _, _ => ret tt
  end end end.

(** The handler given to [subscribeToBusinessChanges]: the event is applied,
    then the version record is refreshed inside a [try]. *)
Definition on_change (getDataVersion : Settled DataVersion) (now : Z)
  (payload : Payload) : Async Session unit :=
  apply_change payload ;;
  try_catch
    (newVersion <- await getDataVersion ;;
     cacheService (setLocalVersion (mkLocalVersion newVersion now)))
    (fun _ => console_error "Failed to update version:").

End ChangeStream.

(** Sample data: a session showing two shops, with a version record from an
    earlier synchronisation; events carry decoded rows. *)
Module Demo.

Definition shop (i shop_name : string) : Business :=
  mkBusiness i shop_name "owner" "9800000000" "grocery"
             None None None None None.

Definition stale : LocalVersion := mkLocalVersion (mkDataVersion 2 1 "A") 1000.

Definition session : Session :=
  mkSession
    (mkBusinessData [mkCategory "grocery" "Grocery" "fa-store"]
                    [shop "1" "Kirana"; shop "2" "Dairy"])
    (mkStores (<["1" := shop "1" "Kirana"]> (<["2" := shop "2" "Dairy"]> ∅))
              (<["grocery" := mkCategory "grocery" "Grocery" "fa-store"]> ∅)
              (Some stale))
    [].

Definition decode (row : Business) : Business := row.

Definition update : @Payload Business :=
  mkPayload "UPDATE" (Some (shop "1" "Kirana Stores")) None.

Definition delete_unseen : @Payload Business :=
  mkPayload "DELETE" None (Some "3").

(** A session whose view was reloaded from the backend after shop 3 was
    deleted there, while the Entity Cache still holds it. *)
Definition reloaded : Session :=
  mkSession
    (mkBusinessData [mkCategory "grocery" "Grocery" "fa-store"]
                    [shop "1" "Kirana"])
    (mkStores (<["1" := shop "1" "Kirana"]> (<["3" := shop "3" "Tailor"]> ∅))
              (<["grocery" := mkCategory "grocery" "Grocery" "fa-store"]> ∅)
              (Some stale))
    [].

End Demo.

End App.

(** * The worker over a run of fetch events *)
Module Lifecycle.
Import ServiceWorker.

(** What a handler sent to the network, looked up and answered. *)
Definition fetches (trace : list Event) : list Request :=
  flat_map (fun e => match e with Fetch request => [request] | _ => [] end)
           trace.

Definition lookups (trace : list Event) : list Request :=
  flat_map (fun e => match e with
                     | CachesMatch request => [request]
                     | _ => []
                     end) trace.

Definition answers (trace : list Event) : list (Settled (option Response)) :=
  flat_map (fun e => match e with Respond outcome => [outcome] | _ => [] end)
           trace.

(** The handler takes a request over when it gets past the two guards. *)
Definition intercepted (request : Request) : bool :=
  (method request =? "GET")%string
  && negb (includes (origin (url request)) "supabase.co").

(** One fetch event handled to its end, the write it started included; a
    run of such events, each seeing the network as it is at that time. *)
Definition handled (caches : CacheStorage) (ev : Network * Request)
  : CacheStorage :=
  caches_after caches (on_fetch caches (fst ev) (snd ev)).

Definition serve (caches : CacheStorage) (events : list (Network * Request))
  : CacheStorage :=
  fold_left handled events caches.

(** The request [cache.addAll] builds for a URL. *)
Definition GET (u : URL) : Request := mkRequest "GET" u.

End Lifecycle.

(** * Text helpers of the page, [App.tsx] *)
Module Text.

(** A JavaScript string by its UTF-16 code units, which is what [length],
    [slice], [split], [trim] and [join] work on; [lit] is a literal of the
    source. *)
Definition JSString : Type := list N.

Definition lit (s : string) : JSString :=
  map N_of_ascii (list_ascii_of_string s).

(** [formatPhoneNumber] *)
Definition formatPhoneNumber (phoneNumber : JSString) : JSString :=
  if (length phoneNumber =? 10)%nat
  then lit "+91 " ++ firstn 5 phoneNumber ++ lit " " ++ skipn 5 phoneNumber
  else phoneNumber.

(** The code units [trim] strips: WhiteSpace and LineTerminator. *)
Definition is_space (c : N) : bool :=
  existsb (N.eqb c)
    [9; 10; 11; 12; 13; 32; 160; 5760; 8232; 8233; 8239; 8287; 12288;
     65279]%N
  || ((8192 <=? c)%N && (c <=? 8202)%N).

Fixpoint trimStart (s : JSString) : JSString :=
  match s with
  | [] => []
  | c :: rest => if is_space c then trimStart rest else s
  end.

(** [s.trim()] *)
Definition trim (s : JSString) : JSString :=
  rev (trimStart (rev (trimStart s))).

(** [s.split(sep)] for a separator of one code unit; the empty string
    splits into one empty piece. *)
Fixpoint split (sep : N) (s : JSString) : list JSString :=
  match s with
  | [] => [[]]
  | c :: rest =>
      if (c =? sep)%N then [] :: split sep rest
      else match split sep rest with
           | piece :: pieces => (c :: piece) :: pieces
           | [] => [[c]]
           end
  end.

(** [pieces.join(sep)] *)
Fixpoint join (sep : JSString) (pieces : list JSString) : JSString :=
  match pieces with
  | [] => []
  | [piece] => piece
  | piece :: rest => piece ++ sep ++ join sep rest
  end.

Definition comma : N := 44.

(** [BusinessForm]: the services field shown for a business being edited,
    [existingBusiness.services ? existingBusiness.services.join(', ') : ''],
    and the list [handleSubmit] reads back from the field,
    [typeof formData.services === 'string' ? formData.services.split(',')
    .map(s => s.trim()).filter(Boolean) : []]. *)
Definition services_field (services : option (list JSString)) : JSString :=
  match services with
  | Some pieces => join (lit ", ") pieces
  | None => []
  end.

Definition submitted_services (field : option JSString) : list JSString :=
  match field with
  | Some text =>
      List.filter (fun s => negb (length s =? 0)%nat)
                  (map trim (split comma text))
  | None => []
  end.

(** A service name that survives the form as it is: not empty, no comma,
    no white space at either end. *)
Definition tidy (s : JSString) : bool :=
  match s with c :: _ => negb (is_space c) | [] => false end
  && match rev s with c :: _ => negb (is_space c) | [] => false end
  && negb (existsb (N.eqb comma) s).

(** [handleCheckboxChange], the payment options: a ticked box appends its
    value, an unticked one removes it. *)
Definition toggle_payment (checked : bool) (value : string)
  (paymentOptions : option (list string)) : list string :=
  let currentOptions := default [] paymentOptions in
  if checked then currentOptions ++ [value]
  else List.filter (fun opt => negb (opt =? value)%string) currentOptions.

End Text.

(** * Searching, counting and the assistant's answers, [App.tsx] *)
Module Directory.
Import App.

(** A string in a condition: the empty string is false. *)
Definition truthy (s : string) : bool := negb (s =? "")%string.

Section Search.

(** [String.prototype.toLowerCase] follows the Unicode case tables; the
    search only applies it. *)
Variable toLowerCase : string -> string.

(** [filteredBusinesses]: a search term wins over a selected category. *)
Definition filteredBusinesses (businessData : BusinessData)
  (searchTerm : string) (selectedCategory : option string)
  : list Business :=
  let baseList := businesses businessData in
  let searchTermLower := toLowerCase searchTerm in
  if truthy searchTerm then
    List.filter (fun business =>
                   includes (toLowerCase (shopName business)) searchTermLower
                   || includes (toLowerCase (ownerName business))
                               searchTermLower
                   || includes (contactNumber business) searchTermLower)
                baseList
  else
    match selectedCategory with
    | Some selected =>
        if truthy selected
        then List.filter (fun business =>
                            (category business =? selected)%string) baseList
        else baseList
    | None => baseList
    end.

End Search.

(** The property names every object literal inherits from
    [Object.prototype]: read on [{}] they are not [undefined]. *)
Definition inherited (key : string) : bool :=
  existsb (String.eqb key)
    ["constructor"; "hasOwnProperty"; "isPrototypeOf";
     "propertyIsEnumerable"; "toLocaleString"; "toString"; "valueOf";
     "__proto__"; "__defineGetter__"; "__defineSetter__";
     "__lookupGetter__"; "__lookupSetter__"].

(** [businessCounts]: the businesses are folded into an object literal,
    [acc[business.category] = (acc[business.category] || 0) + 1].  For a
    category named like an inherited property the value read is not a
    number and the table stops being one of counts: [None]. *)
Definition businessCounts (businesses : list Business)
  : option (gmap string Z) :=
  fold_left (fun acc business =>
               match acc with
               | Some counts =>
                   if inherited (category business) then None
                   else Some (<[category business :=
                                  default 0 (counts !! category business) + 1]>
                                counts)
               | None => None
               end)
            businesses (Some ∅).

(** One entry of the assistant's [results]. *)
Record AiResultItem : Type := mkAiResultItem {
  type : string;
  businessId : option string;
  content : option string
}.

(** What [AiResponseCard] renders for an entry. *)
Inductive Card : Type :=
| AiBusinessResultCard (business : Business)
| TextParagraph (text : string).

(** [new Map(businesses.map(b => [b.id, b]))]: of two businesses with one
    id the later one is kept. *)
Definition businessMap (businesses : list Business) : gmap string Business :=
  fold_left (fun m b => <[id b := b]> m) businesses ∅.

Definition truthy_opt (s : option string) : bool :=
  match s with Some text => truthy text | None => false end.

(** The callback of [aiResult.results.map]; [None] is the [null] that
    renders nothing. *)
Definition render_result (businesses : list Business) (result : AiResultItem)
  : option Card :=
  if (type result =? "business")%string && truthy_opt (businessId result)
  then match businessMap businesses !! default "" (businessId result) with
       | Some business => Some (AiBusinessResultCard business)
       | None => None
       end
  else if (type result =? "text")%string && truthy_opt (content result)
  then Some (TextParagraph (default "" (content result)))
  else None.

(** The assistant's backends. *)
Inductive Provider : Type :=
| Google (apiKey modelName : string)
| Mistral (apiKey modelName : string).

(** [vite.config.ts]: what the build puts in place of
    [process.env.AI_MODEL], [env.AI_MODEL || 'gemini-1.5-flash']. *)
Definition define_AI_MODEL (env_AI_MODEL : option string) : string :=
  match env_AI_MODEL with
  | Some value => if truthy value then value else "gemini-1.5-flash"
  | None => "gemini-1.5-flash"
  end.

(** [handleQuery], the choice of a backend; [inl] is the message of the
    [Error] thrown. *)
Definition choose_provider (AI_MODEL GOOGLE_API_KEY MISTRAL_API_KEY
                            : option string) : string + Provider :=
  match AI_MODEL with
  | Some modelName =>
      if negb (truthy modelName) then
        inl "AI model is not configured. Please set the AI_MODEL environment variable."
      else if startsWith modelName "gemini" || startsWith modelName "gemma"
      then
        if truthy_opt GOOGLE_API_KEY
        then inr (Google (default "" GOOGLE_API_KEY) modelName)
        else inl "Google API key is not configured. Please set the GOOGLE_API_KEY environment variable for this model."
      else if startsWith modelName "mistral" || startsWith modelName "pixtral"
      then
        if truthy_opt MISTRAL_API_KEY
        then inr (Mistral (default "" MISTRAL_API_KEY) modelName)
        else inl "Mistral API key is not configured. Please set the MISTRAL_API_KEY environment variable for this model."
      else
        inl ("Unsupported model configured in AI_MODEL: " ++ modelName
             ++ ".")%string
  | None =>
      inl "AI model is not configured. Please set the AI_MODEL environment variable."
  end.

(** [handleQuery], the [catch]: the message shown for a thrown value;
    [None] is a value that is not an [Error], and [fallback] the page's
    general message. *)
Definition shown_error (fallback : string) (err : option string) : string :=
  match err with
  | Some message =>
      if includes message "AI_MODEL" || includes message "API_KEY"
         || includes message "Unsupported model"
      then message
      else if includes message "API key" || includes message "authentication"
              || includes message "Mistral API error"
      then "The provided API key is invalid. Please check your configuration."
      else fallback
  | None => fallback
  end.

End Directory.

(** * Loading, saving and deleting, the [App] component of [App.tsx] *)
Module Page.
Import App Directory.

Record User : Type := mkUser { user_id : string }.

Inductive AdminView : Type := dashboard | add | edit_list.

(** The dialogs the page opens with [alert]. *)
Inductive Alert : Type :=
| LoadFailed
| Updated
| Added
| SaveFailed (message : string)
| Deleted
| DeleteFailed.

(** The calls made to the backend client. *)
Inductive Call : Type :=
| UpdateBusiness (business : Business)
| AddBusiness (business : Business)
| DeleteBusiness (businessId : string)
| FetchBusinesses.

(** The state of the component, the dialogs shown, the errors logged, the
    calls made and the businesses whose detail view a timer will open. *)
Record State : Type := mkState {
  isLoading : bool;
  businessData : BusinessData;
  currentUser : option User;
  adminView : option AdminView;
  businessToEdit : option Business;
  isSaving : bool;
  deletingId : option string;
  alerts : list Alert;
  errors : list string;
  calls : list Call;
  timers : list Business
}.

Definition setIsLoading (v : bool) (s : State) : State :=
  mkState v (businessData s) (currentUser s) (adminView s) (businessToEdit s)
          (isSaving s) (deletingId s) (alerts s) (errors s) (calls s)
          (timers s).

Definition setBusinessData (f : BusinessData -> BusinessData) (s : State)
  : State :=
  mkState (isLoading s) (f (businessData s)) (currentUser s) (adminView s)
          (businessToEdit s) (isSaving s) (deletingId s) (alerts s) (errors s)
          (calls s) (timers s).

Definition setCurrentUser (v : option User) (s : State) : State :=
  mkState (isLoading s) (businessData s) v (adminView s) (businessToEdit s)
          (isSaving s) (deletingId s) (alerts s) (errors s) (calls s)
          (timers s).

Definition setAdminView (v : option AdminView) (s : State) : State :=
  mkState (isLoading s) (businessData s) (currentUser s) v (businessToEdit s)
          (isSaving s) (deletingId s) (alerts s) (errors s) (calls s)
          (timers s).

Definition setBusinessToEdit (v : option Business) (s : State) : State :=
  mkState (isLoading s) (businessData s) (currentUser s) (adminView s) v
          (isSaving s) (deletingId s) (alerts s) (errors s) (calls s)
          (timers s).

Definition setIsSaving (v : bool) (s : State) : State :=
  mkState (isLoading s) (businessData s) (currentUser s) (adminView s)
          (businessToEdit s) v (deletingId s) (alerts s) (errors s) (calls s)
          (timers s).

Definition setDeletingId (v : option string) (s : State) : State :=
  mkState (isLoading s) (businessData s) (currentUser s) (adminView s)
          (businessToEdit s) (isSaving s) v (alerts s) (errors s) (calls s)
          (timers s).

(** [alert(...)], [console.error(...)] and [setTimeout(() =>
    setViewedBusiness(business), 100)]. *)
Definition alert (a : Alert) (s : State) : State :=
  mkState (isLoading s) (businessData s) (currentUser s) (adminView s)
          (businessToEdit s) (isSaving s) (deletingId s) (alerts s ++ [a])
          (errors s) (calls s) (timers s).

Definition console_error (label : string) (s : State) : State :=
  mkState (isLoading s) (businessData s) (currentUser s) (adminView s)
          (businessToEdit s) (isSaving s) (deletingId s) (alerts s)
          (errors s ++ [label]) (calls s) (timers s).

Definition setTimeout (business : Business) (s : State) : State :=
  mkState (isLoading s) (businessData s) (currentUser s) (adminView s)
          (businessToEdit s) (isSaving s) (deletingId s) (alerts s) (errors s)
          (calls s) (timers s ++ [business]).

(** Awaiting a call to the backend client. *)
Definition call {A : Type} (c : Call) (outcome : Settled A) : Async State A :=
  fun s =>
    (outcome,
     mkState (isLoading s) (businessData s) (currentUser s) (adminView s)
             (businessToEdit s) (isSaving s) (deletingId s) (alerts s)
             (errors s) (calls s ++ [c]) (timers s)).

(** [throw error] and [try { c } finally { f }]. *)
Definition throw {S A : Type} (reason : string) : Async S A :=
  fun s => (Rejected reason, s).

Definition finally {S A : Type} (c : Async S A) (f : S -> S) : Async S A :=
  fun s => (fst (c s), f (snd (c s))).

(** What [loadData] meets on its way: the import of the cache module, the
    read of the cached collections, the outcome of [CacheService.smartSync],
    the [businessId] parameter of the page's URL, and the session check. *)
Record Surroundings : Type := mkSurroundings {
  cacheModule : Settled unit;
  cachedData : Settled (list Business * list Category);
  syncResult : Settled SyncResult;
  businessIdParam : option string;
  getCurrentUser : Settled (option User);
  isUserAdmin : string -> Settled bool
}.

Section Load.

(** [categories.sort((a, b) => a.name.localeCompare(b.name))], the order
    being the locale's. *)
Variable sortByName : list Category -> list Category.

Definition is_no_change (a : SyncAction) : bool :=
  match a with no_change => true | synced => false end.

(** [loadData] *)
Definition loadData (env : Surroundings) : Async State unit :=
  finally
    (try_catch
       (await (cacheModule env) ;;
        cached <- await (match cachedData env with
                         | Fulfilled both => Fulfilled both
                         | Rejected _ => Fulfilled ([], [])
                         end) ;;
        (if (0 <? length (fst cached))%nat
         then modify (setBusinessData (fun _ =>
                        mkBusinessData (sortByName (snd cached))
                                       (fst cached))) ;;
              modify (setIsLoading false)
         else ret tt) ;;
        result <- await (syncResult env) ;;
        (if is_no_change (action result) then ret tt
         else modify (setBusinessData (fun _ =>
                        mkBusinessData
                          (sortByName (result_categories result))
                          (result_businesses result)))) ;;
        (match businessIdParam env with
         | Some businessId =>
             if truthy businessId then
               match List.find (fun b => (id b =? businessId)%string)
                               (result_businesses result) with
               | Some businessToView => modify (setTimeout businessToView)
               | None => ret tt
               end
             else ret tt
         | None => ret tt
         end) ;;
        user <- await (getCurrentUser env) ;;
        match user with
        | Some u =>
            isAdmin <- await (isUserAdmin env (user_id u)) ;;
            if isAdmin then modify (setCurrentUser (Some u)) else ret tt
        | None => ret tt
        end)
       (fun _ =>
          modify (console_error "Error loading data:") ;;
          modify (alert LoadFailed)))
    (setIsLoading false).

End Load.

(** The step of [loadData], if any, whose failure reaches the [catch]. *)
Definition load_fails (env : Surroundings) : bool :=
  match cacheModule env, syncResult env, getCurrentUser env with
  | Fulfilled _, Fulfilled _, Fulfilled (Some u) =>
      match isUserAdmin env (user_id u) with
      | Fulfilled _ => false
      | Rejected _ => true
      end
  | Fulfilled _, Fulfilled _, Fulfilled None => false
  | _, _, _ => true
  end.

(** The backend client as the admin handlers see it. *)
Record Backend : Type := mkBackend {
  updateBusiness : Business -> Settled unit;
  addBusiness : Business -> Settled unit;
  deleteBusiness : string -> Settled unit;
  fetchBusinesses : Settled (list Business)
}.

(** [// Reload businesses] *)
Definition reload (backend : Backend) : Async State unit :=
  businesses <- call FetchBusinesses (fetchBusinesses backend) ;;
  modify (setBusinessData (fun prev =>
            mkBusinessData (categories prev) businesses)).

(** The write [handleSaveBusiness] makes, by [if (businessToSave.id)]. *)
Definition save_call (businessToSave : Business) : Call :=
  if truthy (id businessToSave) then UpdateBusiness businessToSave
  else AddBusiness businessToSave.

(** [handleSaveBusiness] *)
Definition handleSaveBusiness (backend : Backend) (businessToSave : Business)
  : Async State unit :=
  modify (setIsSaving true) ;;
  finally
    (try_catch
       ((if truthy (id businessToSave)
         then call (UpdateBusiness businessToSave)
                   (updateBusiness backend businessToSave) ;;
              modify (alert Updated)
         else call (AddBusiness businessToSave)
                   (addBusiness backend businessToSave) ;;
              modify (alert Added)) ;;
        reload backend ;;
        modify (setAdminView (Some dashboard)) ;;
        modify (setBusinessToEdit None))
       (fun message =>
          modify (console_error "Save error:") ;;
          modify (alert (SaveFailed message))))
    (setIsSaving false).

(** [handleDeleteBusiness]: the failure is logged and thrown again. *)
Definition handleDeleteBusiness (backend : Backend) (businessId : string)
  : Async State unit :=
  try_catch
    (call (DeleteBusiness businessId) (deleteBusiness backend businessId) ;;
     reload backend ;;
     modify (alert Deleted))
    (fun message =>
       modify (console_error "Delete error:") ;;
       throw message).

(** [EditBusinessList.handleDelete], [confirmed] being the answer to
    [confirm(...)] and [onDelete] the page's [handleDeleteBusiness]. *)
Definition handleDelete (onDelete : string -> Async State unit)
  (confirmed : bool) (businessId : string) : Async State unit :=
  if negb confirmed then ret tt
  else
    modify (setDeletingId (Some businessId)) ;;
    finally
      (try_catch (onDelete businessId)
         (fun _ =>
            modify (console_error "Delete error:") ;;
            modify (alert DeleteFailed)))
      (setDeletingId None).

(** Sample data: a page showing the demo shops, and backends. *)
Module Demo.

Definition page : State :=
  mkState true (App.businessData App.Demo.session) None (Some add) None false
          None [] [] [] [].

Definition down : Backend :=
  mkBackend (fun _ => Rejected "offline") (fun _ => Rejected "offline")
            (fun _ => Rejected "offline") (Rejected "offline").

Definition half_down : Backend :=
  mkBackend (fun _ => Fulfilled tt) (fun _ => Fulfilled tt)
            (fun _ => Fulfilled tt) (Rejected "offline").

Definition offline_start : Surroundings :=
  mkSurroundings (Fulfilled tt)
    (Fulfilled ([App.Demo.shop "1" "Kirana"], []))
    (Rejected "offline") None (Rejected "offline")
    (fun _ => Rejected "offline").

Definition admin_visit : Surroundings :=
  mkSurroundings (Fulfilled tt) (Fulfilled ([], []))
    (Fulfilled (mkSyncResult synced false []
                  [App.Demo.shop "1" "Kirana"; App.Demo.shop "2" "Dairy"]))
    (Some "2") (Fulfilled (Some (mkUser "u1")))
    (fun _ => Fulfilled true).

End Demo.

End Page.

(** * Properties of the service worker *)

Import ServiceWorker.

Lemma url_eqb_eq (u v : URL) : url_eqb u v = true <-> u = v.
Proof.
  unfold url_eqb. destruct u as [o p s], v as [o' p' s']; simpl.
  rewrite !andb_true_iff, !String.eqb_eq. split.
  - intros [[-> ->] ->]. reflexivity.
  - intros [= -> -> ->]. auto.
Qed.

Lemma url_eqb_refl (u : URL) : url_eqb u u = true.
Proof. apply url_eqb_eq. reflexivity. Qed.

(** A cache without network-first entries answers no network-first
    request. *)
Lemma cache_match_static (c : Cache) (request : Request) :
  static_only c = true ->
  network_first (url request) = true ->
  cache_match c request = None.
Proof.
  intros Hc Hnf. induction c as [|[u response] rest IH]; simpl in *.
  - reflexivity.
  - apply andb_true_iff in Hc as [Hu Hrest].
    destruct (url_eqb u (url request)) eqn:E.
    + apply url_eqb_eq in E. subst u. rewrite Hnf in Hu. discriminate.
    + auto.
Qed.

(** In a storage of the worker's shape, what the runtime cache holds for a
    network-first request is what [caches.match] finds. *)
Lemma caches_match_runtime (caches : CacheStorage) (request : Request)
  (cached : Response) :
  runtime_holds_dynamic caches = true ->
  network_first (url request) = true ->
  stored_in RUNTIME_CACHE caches request = Some cached ->
  caches_match caches request = Some cached.
Proof.
  unfold stored_in. intros Hshape Hnf.
  induction caches as [|[n c] rest IH]; simpl in *; intros Hst.
  - discriminate.
  - apply andb_true_iff in Hshape as [Hhead Hrest].
    destruct (n =? RUNTIME_CACHE)%string eqn:En.
    + rewrite Hst. reflexivity.
    + simpl in Hhead. rewrite (cache_match_static c request Hhead Hnf). auto.
Qed.

Lemma cache_match_put_other (request other : Request) (response : Response)
  (c : Cache) :
  url_eqb (url other) (url request) = false ->
  cache_match (cache_put other response c) request = cache_match c request.
Proof.
  intros Hne. unfold cache_put.
  induction c as [|[u r] rest IH]; simpl.
  - rewrite Hne. reflexivity.
  - destruct (url_eqb u (url other)) eqn:Eo; simpl.
    + apply url_eqb_eq in Eo. subst u. rewrite Hne. exact IH.
    + destruct (url_eqb u (url request)); [reflexivity | exact IH].
Qed.

Lemma cache_match_put_same (request : Request) (response : Response)
  (c : Cache) :
  cache_match (cache_put request response c) request = Some response.
Proof.
  unfold cache_put. induction c as [|[u r] rest IH]; simpl.
  - rewrite url_eqb_refl. reflexivity.
  - destruct (url_eqb u (url request)) eqn:E; simpl.
    + exact IH.
    + rewrite E. exact IH.
Qed.

Lemma stored_in_update (name : string) (f : Cache -> Cache)
  (caches : CacheStorage) (request : Request) :
  stored_in name (caches_update name f caches) request
  = cache_match (f (default [] (caches_get caches name))) request.
Proof.
  unfold stored_in. induction caches as [|[n c] rest IH]; simpl.
  - rewrite String.eqb_refl. reflexivity.
  - destruct (n =? name)%string eqn:E; simpl; rewrite E; auto.
Qed.

(** Deleting the caches of a list of names keeps exactly the entries whose
    name is not listed. *)
Lemma fold_caches_delete (names : list string) (caches : CacheStorage) :
  fold_left (fun cs name => caches_delete name cs) names caches
  = List.filter (fun entry =>
                   negb (existsb (String.eqb (fst entry)) names)) caches.
Proof.
  revert caches. induction names as [|n names IH]; intros caches; simpl.
  - induction caches as [|e rest IHc]; simpl; congruence.
  - rewrite IH. unfold caches_delete.
    induction caches as [|e rest IHc]; simpl.
    + reflexivity.
    + destruct (fst e =? n)%string; simpl.
      * exact IHc.
      * destruct (existsb (String.eqb (fst e)) names); simpl; congruence.
Qed.

Lemma on_activate_keeps_current (caches : CacheStorage) :
  on_activate caches = List.filter (fun entry => current (fst entry)) caches.
Proof.
  unfold on_activate. rewrite fold_caches_delete.
  apply filter_ext_in. intros [n c] Hin. simpl.
  unfold current.
  destruct ((n =? CACHE_NAME)%string || (n =? RUNTIME_CACHE)%string) eqn:E.
  - apply negb_true_iff.
    destruct (existsb _ _) eqn:Ex; [|reflexivity].
    apply existsb_exists in Ex as [m [Hm Hnm]].
    apply String.eqb_eq in Hnm. subst m.
    apply filter_In in Hm as [_ Hm].
    apply orb_true_iff in E.
    destruct E as [E|E]; rewrite E in Hm; simpl in Hm;
      [discriminate | rewrite andb_false_r in Hm; discriminate].
  - apply negb_false_iff. apply existsb_exists. exists n. split.
    + apply filter_In. split.
      * unfold caches_keys. apply in_map_iff. exists (n, c). auto.
      * apply orb_false_iff in E as [-> ->]. reflexivity.
    + apply String.eqb_refl.
Qed.

Lemma cache_match_put (other request : Request) (response : Response)
  (c : Cache) :
  cache_match (cache_put other response c) request
  = if url_eqb (url other) (url request) then Some response
    else cache_match c request.
Proof.
  destruct (url_eqb (url other) (url request)) eqn:E.
  - apply url_eqb_eq in E. unfold cache_put. rewrite E.
    change (List.filter (fun entry => negb (url_eqb (fst entry) (url request))) c
            ++ [(url request, response)])
      with (cache_put request response c).
    apply cache_match_put_same.
  - apply cache_match_put_other. exact E.
Qed.

(** ** The shape of the storage is an invariant of the worker *)

Lemma caches_update_shape (name : string) (f : Cache -> Cache)
  (caches : CacheStorage) :
  (name = RUNTIME_CACHE
   \/ forall c, static_only c = true -> static_only (f c) = true) ->
  runtime_holds_dynamic caches = true ->
  runtime_holds_dynamic (caches_update name f caches) = true.
Proof.
  intros Hf. induction caches as [|[n c] rest IH]; simpl; intros Hshape.
  - rewrite andb_true_r. destruct Hf as [-> | Hf].
    + rewrite String.eqb_refl. reflexivity.
    + rewrite (Hf [] eq_refl). apply orb_true_r.
  - apply andb_true_iff in Hshape as [Hhead Hrest].
    destruct (n =? name)%string eqn:E; simpl.
    + apply String.eqb_eq in E. subst n. rewrite Hrest, andb_true_r.
      destruct Hf as [-> | Hf].
      * rewrite String.eqb_refl. reflexivity.
      * apply orb_true_iff in Hhead as [-> | Hc]; [reflexivity|].
        rewrite (Hf c Hc). apply orb_true_r.
    + rewrite Hhead. simpl. auto.
Qed.

Lemma cache_put_static (request : Request) (response : Response) (c : Cache) :
  network_first (url request) = false ->
  static_only c = true ->
  static_only (cache_put request response c) = true.
Proof.
  intros Hnf Hc. unfold static_only, cache_put in *.
  rewrite forallb_app. simpl. rewrite Hnf. simpl. rewrite andb_true_r.
  apply forallb_forall. intros e He. apply filter_In in He as [He _].
  rewrite forallb_forall in Hc. auto.
Qed.

Lemma fetch_all_urls (net : Network) (urls : list URL)
  (entries : list (Request * Response)) :
  fetch_all net urls = Some entries ->
  map (fun entry => url (fst entry)) entries = urls.
Proof.
  revert entries. induction urls as [|u rest IH]; simpl; intros entries H.
  - injection H as <-. reflexivity.
  - destruct (net (mkRequest "GET" u)) as [response|]; [|discriminate].
    destruct (addable response); [|discriminate].
    destruct (fetch_all net rest) as [tail|]; [|discriminate].
    injection H as <-. simpl. f_equal. auto.
Qed.

Lemma put_all_static (entries : list (Request * Response)) (c : Cache) :
  forallb (fun entry => negb (network_first (url (fst entry)))) entries = true ->
  static_only c = true ->
  static_only (put_all entries c) = true.
Proof.
  unfold put_all. revert c.
  induction entries as [|[rq rs] rest IH]; simpl; intros c He Hc.
  - exact Hc.
  - apply andb_true_iff in He as [Hrq Hrest].
    apply IH; [exact Hrest|].
    apply cache_put_static; [|exact Hc]. apply negb_true_iff. exact Hrq.
Qed.

Lemma on_install_shape (self_origin : string) (net : Network)
  (caches : CacheStorage) :
  runtime_holds_dynamic caches = true ->
  runtime_holds_dynamic (on_install self_origin net caches) = true.
Proof.
  intros Hshape. unfold on_install.
  destruct (fetch_all net (PRECACHE_ASSETS self_origin)) as [entries|] eqn:E.
  - apply caches_update_shape; [right|exact Hshape].
    intros c Hc. apply put_all_static; [|exact Hc].
    apply fetch_all_urls in E.
    assert (Hurls : forallb (fun u => negb (network_first u))
                      (map (fun entry => url (fst entry)) entries) = true)
      by (rewrite E; reflexivity).
    rewrite forallb_forall in Hurls. apply forallb_forall.
    intros e He. apply Hurls. apply in_map_iff. exists e. auto.
  - apply caches_update_shape; [right; auto | exact Hshape].
Qed.

Lemma on_activate_shape (caches : CacheStorage) :
  runtime_holds_dynamic caches = true ->
  runtime_holds_dynamic (on_activate caches) = true.
Proof.
  rewrite on_activate_keeps_current. unfold runtime_holds_dynamic.
  rewrite !forallb_forall. intros H e He.
  apply filter_In in He as [He _]. auto.
Qed.

Lemma on_fetch_shape (caches : CacheStorage) (net : Network)
  (request : Request) :
  runtime_holds_dynamic caches = true ->
  runtime_holds_dynamic (caches_after caches (on_fetch caches net request))
  = true.
Proof.
  intros Hshape. unfold on_fetch, write_through, caches_after.
  repeat match goal with
         | |- context [if ?b then _ else _] => destruct b
         | |- context [match ?x with _ => _ end] => destruct x
         end; simpl; auto using caches_update_shape.
Qed.

Lemma built_shape (self_origin : string) (caches : CacheStorage) :
  built self_origin caches -> runtime_holds_dynamic caches = true.
Proof.
  induction 1 as [|net caches _ IH|caches _ IH|net request caches _ IH].
  - reflexivity.
  - apply on_install_shape. exact IH.
  - apply on_activate_shape. exact IH.
  - apply on_fetch_shape. exact IH.
Qed.

(** ** The fetch handler *)

(** With the network down the network-first branch answers with whatever
    [caches.match] finds, a response or [undefined]. *)
Lemma network_first_offline (caches : CacheStorage) (net : Network)
  (request : Request) (reason : string) :
  method request = "GET" ->
  includes (origin (url request)) "supabase.co" = false ->
  network_first (url request) = true ->
  net request = Rejected reason ->
  on_fetch caches net request
  = [Fetch request; CachesMatch request;
     Respond (Fulfilled (caches_match caches request))].
Proof.
  intros Hget Hsupa Hnf Hnet. unfold on_fetch.
  rewrite Hget, Hsupa, Hnf, Hnet. reflexivity.
Qed.

(** C2. A GET request on the network-first path whose network fetch fails
    is answered with the response the runtime cache stored for that very
    request: the promise given to [respondWith] is fulfilled with it and the
    failure goes no further. *)
Theorem network_first_serves_cached (caches : CacheStorage) (net : Network)
  (request : Request) (cached : Response) (reason : string) :
  method request = "GET" ->
  includes (origin (url request)) "supabase.co" = false ->
  network_first (url request) = true ->
  runtime_holds_dynamic caches = true ->
  net request = Rejected reason ->
  stored_in RUNTIME_CACHE caches request = Some cached ->
  on_fetch caches net request
  = [Fetch request; CachesMatch request; Respond (Fulfilled (Some cached))].
Proof.
  intros Hget Hsupa Hnf Hshape Hnet Hstored.
  rewrite (network_first_offline caches net request reason) by assumption.
  rewrite (caches_match_runtime caches request cached Hshape Hnf Hstored).
  reflexivity.
Qed.

Lemma network_first_serves_cached_witness :
  answer (on_fetch Samples.visited Samples.offline Samples.bundle)
  = Some (Fulfilled (Some Samples.script)).
Proof.
  rewrite (network_first_serves_cached Samples.visited Samples.offline
             Samples.bundle Samples.script "Failed to fetch");
    reflexivity.
Defined.

(** C3. With the network down and nothing cached for the request, the
    network-first branch fulfils the promise given to [respondWith] with
    [undefined], the result of the missed [caches.match]; it does not
    reject, and the reason of the network failure is dropped. *)
Theorem network_first_miss_answers_undefined :
  on_fetch Samples.fresh Samples.offline Samples.bundle
  = [Fetch Samples.bundle; CachesMatch Samples.bundle;
     Respond (Fulfilled None)]
  /\ answer (on_fetch Samples.fresh Samples.offline Samples.bundle)
     <> Some (Rejected "Failed to fetch").
Proof. split; [reflexivity | discriminate]. Qed.

(** The same on every input: a network-first request that fails and misses
    every cache is answered with [undefined]. *)
Lemma network_first_miss (caches : CacheStorage) (net : Network)
  (request : Request) (reason : string) :
  method request = "GET" ->
  includes (origin (url request)) "supabase.co" = false ->
  network_first (url request) = true ->
  net request = Rejected reason ->
  caches_match caches request = None ->
  answer (on_fetch caches net request) = Some (Fulfilled None).
Proof.
  intros Hget Hsupa Hnf Hnet Hmiss.
  rewrite (network_first_offline caches net request reason) by assumption.
  rewrite Hmiss. reflexivity.
Qed.

(** The cache-first branch, its sibling, does let the failure through. *)
Lemma cache_first_miss_rejects (caches : CacheStorage) (net : Network)
  (request : Request) (reason : string) :
  method request = "GET" ->
  includes (origin (url request)) "supabase.co" = false ->
  network_first (url request) = false ->
  net request = Rejected reason ->
  caches_match caches request = None ->
  answer (on_fetch caches net request) = Some (Rejected reason).
Proof.
  intros Hget Hsupa Hnf Hnet Hmiss. unfold on_fetch.
  rewrite Hget, Hsupa, Hnf, Hnet, Hmiss. reflexivity.
Qed.

(** C7, as stated, fails: a static asset that is not cached yet is fetched
    with status 200 and handed to the requester while the runtime cache
    still lacks it; the write happens afterwards. *)
Lemma cache_first_answers_before_write :
  let trace := on_fetch Samples.fresh Samples.online Samples.logo in
  method Samples.logo = "GET"
  /\ includes (origin (url Samples.logo)) "supabase.co" = false
  /\ network_first (url Samples.logo) = false
  /\ caches_match Samples.fresh Samples.logo = None
  /\ Samples.online Samples.logo = Fulfilled Samples.image
  /\ status Samples.image = 200
  /\ answer trace = Some (Fulfilled (Some Samples.image))
  /\ stored_in RUNTIME_CACHE (caches_when_answered Samples.fresh trace)
       Samples.logo
     <> Some Samples.image
  /\ stored_in RUNTIME_CACHE (caches_after Samples.fresh trace) Samples.logo
     = Some Samples.image.
Proof. repeat split; try reflexivity. discriminate. Qed.

(** C7, amended. On the cache-first path a cached response is returned
    without any network fetch and without touching a cache; when nothing is
    cached the request is fetched and the response returned as it is, and
    if its status is 200 its copy is put into the runtime cache after the
    answer, so that the cache holds it once the handler's work is done. *)
Theorem cache_first_policy (caches : CacheStorage) (net : Network)
  (request : Request) :
  method request = "GET" ->
  includes (origin (url request)) "supabase.co" = false ->
  network_first (url request) = false ->
  (forall cached, caches_match caches request = Some cached ->
     on_fetch caches net request
     = [CachesMatch request; Respond (Fulfilled (Some cached))])
  /\ (forall response,
        caches_match caches request = None ->
        net request = Fulfilled response ->
        on_fetch caches net request
        = [CachesMatch request; Fetch request;
           Respond (Fulfilled (Some response))]
          ++ (if status response =? 200
              then [CachePut RUNTIME_CACHE request response] else [])
        /\ caches_when_answered caches (on_fetch caches net request) = caches
        /\ (status response = 200 ->
            stored_in RUNTIME_CACHE
              (caches_after caches (on_fetch caches net request)) request
            = Some response)).
Proof.
  intros Hget Hsupa Hnf. unfold on_fetch. rewrite Hget, Hsupa, Hnf. simpl.
  split.
  - intros cached ->. reflexivity.
  - intros response -> ->. unfold write_through.
    split; [reflexivity | split].
    + destruct (status response =? 200); reflexivity.
    + intros H200. rewrite H200. unfold caches_after. simpl.
      rewrite stored_in_update. apply cache_match_put_same.
Qed.

Lemma cache_first_policy_witness :
  on_fetch Samples.visited Samples.online
    (mkRequest "GET" (mkURL Samples.app "/" ""))
  = [CachesMatch (mkRequest "GET" (mkURL Samples.app "/" ""));
     Respond (Fulfilled (Some Samples.shell))]
  /\ stored_in RUNTIME_CACHE
       (caches_after Samples.fresh
          (on_fetch Samples.fresh Samples.online Samples.logo))
       Samples.logo
     = Some Samples.image.
Proof.
  split.
  - apply (cache_first_policy Samples.visited Samples.online
             (mkRequest "GET" (mkURL Samples.app "/" ""))); reflexivity.
  - apply (cache_first_policy Samples.fresh Samples.online Samples.logo);
      reflexivity.
Defined.

(** C8. A request whose origin is the data backend's is never taken over:
    whatever its method, the handler returns before [respondWith], having
    fetched nothing and looked into no cache, so the browser sends it to the
    network itself and the caches stay as they were. *)
Theorem supabase_requests_bypass (caches : CacheStorage) (net : Network)
  (request : Request) :
  includes (origin (url request)) "supabase.co" = true ->
  on_fetch caches net request = []
  /\ answer (on_fetch caches net request) = None
  /\ caches_after caches (on_fetch caches net request) = caches.
Proof.
  intros Hsupa. unfold on_fetch. rewrite Hsupa.
  destruct (negb (method request =? "GET")%string); auto.
Qed.

Lemma supabase_requests_bypass_witness :
  on_fetch Samples.visited Samples.online Samples.rows = []
  /\ answer (on_fetch Samples.visited Samples.online Samples.rows) = None
  /\ caches_after Samples.visited
       (on_fetch Samples.visited Samples.online Samples.rows)
     = Samples.visited.
Proof.
  apply (supabase_requests_bypass Samples.visited Samples.online Samples.rows).
  reflexivity.
Defined.

(** ** Activation *)

(** C9. Activation deletes every cache whose name is neither [CACHE_NAME]
    nor [RUNTIME_CACHE] and leaves those two as they were: the storage
    afterwards consists of exactly the earlier caches that carry one of the
    two current names. *)
Theorem activate_purges_old_caches (caches : CacheStorage) :
  forall (name : string) (c : Cache),
    In (name, c) (on_activate caches)
    <-> In (name, c) caches /\ (name = CACHE_NAME \/ name = RUNTIME_CACHE).
Proof.
  intros name c. rewrite on_activate_keeps_current, filter_In.
  unfold current. simpl. rewrite orb_true_iff, !String.eqb_eq. reflexivity.
Qed.

(** The order of the remaining caches, hence the order [caches.match]
    searches them in, is kept as well. *)
Lemma activate_on_visited :
  on_activate Samples.legacy = Samples.visited.
Proof. reflexivity. Qed.

(** ** Only 200 responses reach the runtime cache *)

Lemma puts_write_through (request : Request) (response : Response) :
  puts (write_through request response)
  = if status response =? 200 then [(RUNTIME_CACHE, request, response)]
    else [].
Proof. unfold write_through. destruct (status response =? 200); reflexivity. Qed.

Lemma caches_update_put_200 (caches : CacheStorage) (request : Request)
  (response : Response) :
  status response = 200 ->
  runtime_all_200 caches ->
  runtime_all_200
    (caches_update RUNTIME_CACHE (cache_put request response) caches).
Proof.
  intros H200 Hall rq rs. rewrite stored_in_update, cache_match_put.
  destruct (url_eqb (url request) (url rq)).
  - intros [= <-]. exact H200.
  - intros Hold. apply (Hall rq rs). unfold stored_in.
    destruct (caches_get caches RUNTIME_CACHE); [exact Hold | discriminate].
Qed.

(** C10. Every write the fetch handler makes goes to the runtime cache and
    stores the response it just fetched for the request, with status
    exactly 200; a fetched response of any other status is handed to the
    requester and nothing is written; so a runtime cache holding only 200
    responses still does after the handler's writes. *)
Theorem only_200_written (caches : CacheStorage) (net : Network)
  (request : Request) :
  (forall name rq response,
     In (name, rq, response) (puts (on_fetch caches net request)) ->
     name = RUNTIME_CACHE /\ rq = request
     /\ net request = Fulfilled response /\ status response = 200)
  /\ (forall response,
        In (Fetch request) (on_fetch caches net request) ->
        net request = Fulfilled response ->
        status response <> 200 ->
        answer (on_fetch caches net request) = Some (Fulfilled (Some response))
        /\ puts (on_fetch caches net request) = [])
  /\ (runtime_all_200 caches ->
      runtime_all_200 (caches_after caches (on_fetch caches net request))).
Proof.
  assert (Hwrite : forall response,
             net request = Fulfilled response ->
             (forall name rq rs,
                In (name, rq, rs) (puts (write_through request response)) ->
                name = RUNTIME_CACHE /\ rq = request
                /\ net request = Fulfilled rs /\ status rs = 200)
             /\ (status response <> 200 ->
                 puts (write_through request response) = [])
             /\ (runtime_all_200 caches ->
                 runtime_all_200
                   (caches_after caches (write_through request response)))).
  { intros response Hnet. rewrite puts_write_through. unfold write_through.
    destruct (status response =? 200) eqn:E; simpl.
    - apply Z.eqb_eq in E. split; [|split].
      + intros name rq rs [[= <- <- <-]|[]]. auto.
      + intros Hne. contradiction.
      + intros Hall. apply caches_update_put_200; assumption.
    - split; [|split]; [intros ? ? ? [] | reflexivity | exact (fun H => H)]. }
  unfold on_fetch.
  destruct (negb (method request =? "GET")%string);
    [ split; [intros ? ? ? [] | split; [intros ? [] | exact (fun H => H)]] |].
  destruct (includes (origin (url request)) "supabase.co");
    [ split; [intros ? ? ? [] | split; [intros ? [] | exact (fun H => H)]] |].
  destruct (network_first (url request)).
  - destruct (net request) as [response|reason] eqn:Hnet.
    + destruct (Hwrite response eq_refl) as (Hputs & Hnone & Hall).
      split; [exact Hputs | split; [|exact Hall]].
      intros rs _ [= <-] Hne. split; [reflexivity | exact (Hnone Hne)].
    + split; [intros ? ? ? [] | split; [|exact (fun H => H)]].
      intros rs _ [=].
  - destruct (caches_match caches request) as [cached|].
    + split; [intros ? ? ? [] | split; [|exact (fun H => H)]].
      intros rs [H|[H|[]]]; discriminate.
    + destruct (net request) as [response|reason] eqn:Hnet.
      * destruct (Hwrite response eq_refl) as (Hputs & Hnone & Hall).
        split; [exact Hputs | split; [|exact Hall]].
        intros rs _ [= <-] Hne. split; [reflexivity | exact (Hnone Hne)].
      * split; [intros ? ? ? [] | split; [|exact (fun H => H)]].
        intros rs _ [=].
Qed.

Lemma only_200_written_witness :
  (answer (on_fetch Samples.fresh Samples.gone Samples.logo)
   = Some (Fulfilled (Some Samples.missing))
   /\ puts (on_fetch Samples.fresh Samples.gone Samples.logo) = [])
  /\ status Samples.image = 200.
Proof.
  split.
  - apply (only_200_written Samples.fresh Samples.gone Samples.logo).
    + simpl. auto.
    + reflexivity.
    + discriminate.
  - apply (proj1 (only_200_written Samples.fresh Samples.online Samples.logo)
             RUNTIME_CACHE Samples.logo Samples.image).
    simpl. auto.
Defined.

(** * Properties of the synchronisation layer *)

Import App.

(** C1. When the version fetch fails, [smartSync] is fulfilled, not
    rejected: its result is the current content of the Entity Cache tagged
    [no_change] and [fromCache], and the stores are left as they were.  The
    capability [loadData] passes fails exactly when [getDataVersion]
    does. *)
Theorem smartSync_version_fetch_fails (reason : string) (now : Z)
  (fetchAll : Settled BusinessData) (st : Stores) :
  fetchVersion (Rejected reason) now = Rejected reason
  /\ smartSync (fetchVersion (Rejected reason) now) fetchAll st
     = (Fulfilled (mkSyncResult no_change true
                     (getCachedCategories st) (getCachedBusinesses st)),
        st).
Proof. split; reflexivity. Qed.

(** ** The change handler *)

Section ChangeStreamFacts.

Context {RawRecord : Type}.
Variable dbBusinessToBusiness : RawRecord -> Business.

Local Abbreviation on_change := (on_change dbBusinessToBusiness).
Local Abbreviation apply_change := (apply_change dbBusinessToBusiness).

(** Applying an event never throws and leaves the version record and the
    console alone. *)
Lemma apply_change_fulfilled (payload : Payload) (s : Session) :
  fst (apply_change payload s) = Fulfilled tt
  /\ localVersion (stores (snd (apply_change payload s)))
     = localVersion (stores s)
  /\ console (snd (apply_change payload s)) = console s.
Proof.
  unfold App.apply_change.
  destruct (eventType payload =? "INSERT")%string, (new payload);
    try (repeat split; reflexivity);
    destruct (eventType payload =? "UPDATE")%string;
    try (repeat split; reflexivity);
    destruct (eventType payload =? "DELETE")%string, (old payload);
    repeat split; reflexivity.
Qed.

Lemma on_change_unfold (getDataVersion : Settled DataVersion) (now : Z)
  (payload : Payload) (s : Session) :
  on_change getDataVersion now payload s
  = let s1 := snd (apply_change payload s) in
    match getDataVersion with
    | Fulfilled newVersion =>
        (Fulfilled tt,
         mkSession (businessData s1)
                   (setLocalVersion (mkLocalVersion newVersion now) (stores s1))
                   (console s1))
    | Rejected _ =>
        (Fulfilled tt,
         mkSession (businessData s1) (stores s1)
                   (console s1 ++ ["Failed to update version:"]))
    end.
Proof.
  unfold App.on_change, bind.
  destruct (apply_change_fulfilled payload s) as (Hok & _).
  destruct (apply_change payload s) as [outcome s1]. simpl in *. subst outcome.
  destruct getDataVersion; reflexivity.
Qed.

(** C4, amended. After an event the handler asks the backend for the
    current version; when that succeeds the version, stamped with the time,
    becomes the stored one; when it fails the failure is logged, the stored
    version stays what it was, and the handler still completes. *)
Theorem on_change_refreshes_version (getDataVersion : Settled DataVersion)
  (now : Z) (payload : Payload) (s : Session) :
  fst (on_change getDataVersion now payload s) = Fulfilled tt
  /\ match getDataVersion with
     | Fulfilled newVersion =>
         localVersion (stores (snd (on_change getDataVersion now payload s)))
         = Some (mkLocalVersion newVersion now)
         /\ console (snd (on_change getDataVersion now payload s)) = console s
     | Rejected _ =>
         localVersion (stores (snd (on_change getDataVersion now payload s)))
         = localVersion (stores s)
         /\ console (snd (on_change getDataVersion now payload s))
            = console s ++ ["Failed to update version:"]
     end.
Proof.
  rewrite on_change_unfold.
  destruct (apply_change_fulfilled payload s) as (_ & Hv & Hc).
  destruct getDataVersion; simpl; rewrite ?Hv, ?Hc; auto.
Qed.

Lemma replace_by_id_twice (u : Business) (l : list Business) :
  let replace := fun b => if (id b =? id u)%string then u else b in
  map replace (map replace l) = map replace l.
Proof.
  simpl. rewrite map_map. apply map_ext. intros b.
  destruct (id b =? id u)%string eqn:E.
  - rewrite String.eqb_refl. reflexivity.
  - rewrite E. reflexivity.
Qed.

(** C5. An UPDATE event applied a second time changes nothing: the view
    state and both collections of the Entity Cache are what they were after
    the first application, whatever the version fetches returned. *)
Theorem update_idempotent (payload : Payload) (s : Session)
  (v1 v2 : Settled DataVersion) (t1 t2 : Z) :
  eventType payload = "UPDATE" ->
  let once := snd (on_change v1 t1 payload s) in
  let twice := snd (on_change v2 t2 payload once) in
  businessData twice = businessData once
  /\ cachedBusinesses (stores twice) = cachedBusinesses (stores once)
  /\ cachedCategories (stores twice) = cachedCategories (stores once).
Proof.
  intros Hupdate. simpl. rewrite !on_change_unfold.
  unfold App.apply_change. rewrite Hupdate. simpl.
  destruct (new payload) as [raw|]; destruct v1, v2; simpl;
    rewrite ?replace_by_id_twice, ?insert_insert_eq; auto.
Qed.

Lemma filter_none_removed (i : string) (l : list Business) :
  (forall b, In b l -> id b <> i) ->
  List.filter (fun b => negb (id b =? i)%string) l = l.
Proof.
  intros Hl. induction l as [|b rest IH]; simpl.
  - reflexivity.
  - destruct (id b =? i)%string eqn:E.
    + apply String.eqb_eq in E. exfalso. apply (Hl b); simpl; auto.
    + simpl. f_equal. apply IH. intros b' Hb'. apply Hl. simpl. auto.
Qed.

(** C6, amended. A DELETE event for an id that no business of the list
    carries leaves the view state unchanged, and the handler completes
    without throwing.  The cached businesses lose the business cached under
    that id: they are unchanged exactly when none is cached under it, which
    the list shown does not tell; the cached categories are never
    touched. *)
Theorem delete_unseen_noop (payload : Payload) (old_id : string)
  (s : Session) (getDataVersion : Settled DataVersion) (now : Z) :
  eventType payload = "DELETE" ->
  old payload = Some old_id ->
  let s' := snd (on_change getDataVersion now payload s) in
  fst (on_change getDataVersion now payload s) = Fulfilled tt
  /\ ((forall b, In b (businesses (businessData s)) -> id b <> old_id) ->
      businessData s' = businessData s)
  /\ cachedBusinesses (stores s') = delete old_id (cachedBusinesses (stores s))
  /\ cachedCategories (stores s') = cachedCategories (stores s)
  /\ (cachedBusinesses (stores s) !! old_id = None <->
      cachedBusinesses (stores s') = cachedBusinesses (stores s))
  /\ (cachedBusinesses (stores s) !! old_id = None ->
      getCachedBusinesses (stores s') = getCachedBusinesses (stores s)).
Proof.
  intros Hdelete Hold. simpl. rewrite !on_change_unfold.
  unfold App.apply_change. rewrite Hdelete, Hold. simpl.
  assert (Hsame : cachedBusinesses (stores s) !! old_id = None <->
                  delete old_id (cachedBusinesses (stores s))
                  = cachedBusinesses (stores s)).
  { split; [apply delete_id|].
    intros Heq. rewrite <- Heq. apply lookup_delete_eq. }
  split; [destruct getDataVersion; reflexivity | split].
  - intros Hunseen. destruct getDataVersion; simpl;
      rewrite (filter_none_removed old_id _ Hunseen);
      destruct (businessData s); reflexivity.
  - unfold getCachedBusinesses.
    destruct getDataVersion; simpl;
      (split; [reflexivity | split; [reflexivity | split; [exact Hsame|]]]);
      intros Hunseen; rewrite (delete_id _ _ Hunseen); reflexivity.
Qed.

End ChangeStreamFacts.

(** C4, as stated, fails: the UPDATE is applied to the view, the version
    fetch that follows is rejected, and the stored version is still the one
    of the earlier synchronisation. *)
Lemma version_not_refreshed_offline :
  let s' := snd (on_change Demo.decode (Rejected "Failed to fetch") 2000
                   Demo.update Demo.session) in
  businesses (businessData s')
  = [Demo.shop "1" "Kirana Stores"; Demo.shop "2" "Dairy"]
  /\ localVersion (stores s') = Some Demo.stale
  /\ ~ (exists fresh : DataVersion,
          localVersion (stores s') = Some (mkLocalVersion fresh 2000)).
Proof.
  split; [reflexivity | split; [reflexivity |]].
  intros [fresh H]. discriminate H.
Qed.

Lemma update_idempotent_witness :
  let once := snd (on_change Demo.decode (Rejected "Failed to fetch") 2000
                     Demo.update Demo.session) in
  let twice := snd (on_change Demo.decode
                      (Fulfilled (mkDataVersion 2 1 "B")) 3000
                      Demo.update once) in
  businessData twice = businessData once
  /\ cachedBusinesses (stores twice) = cachedBusinesses (stores once)
  /\ cachedCategories (stores twice) = cachedCategories (stores once).
Proof.
  apply (update_idempotent Demo.decode Demo.update Demo.session).
  reflexivity.
Defined.

Lemma delete_unseen_noop_witness :
  let s' := snd (on_change Demo.decode (Fulfilled (mkDataVersion 2 1 "A"))
                   2000 Demo.delete_unseen Demo.session) in
  businessData s' = businessData Demo.session
  /\ getCachedBusinesses (stores s') = getCachedBusinesses (stores Demo.session).
Proof.
  pose proof (delete_unseen_noop Demo.decode Demo.delete_unseen "3"
                Demo.session (Fulfilled (mkDataVersion 2 1 "A")) 2000
                eq_refl eq_refl) as (_ & Hview & _ & _ & _ & Hcache).
  split.
  - apply Hview. intros b [<- | [<- | []]]; discriminate.
  - apply Hcache. reflexivity.
Defined.

(** C6, as stated, fails: the id of the DELETE event occurs nowhere in the
    list shown, which stays as it is, yet the Entity Cache holds a business
    under that id and loses it. *)
Lemma delete_unseen_in_list_changes_cache :
  let s' := snd (on_change Demo.decode (Fulfilled (mkDataVersion 1 1 "B"))
                   2000 Demo.delete_unseen Demo.reloaded) in
  eventType Demo.delete_unseen = "DELETE"
  /\ old Demo.delete_unseen = Some "3"
  /\ existsb (fun b => (id b =? "3")%string)
             (businesses (businessData Demo.reloaded)) = false
  /\ businessData s' = businessData Demo.reloaded
  /\ cachedBusinesses (stores Demo.reloaded) !! "3"
     = Some (Demo.shop "3" "Tailor")
  /\ cachedBusinesses (stores s') !! "3" = None
  /\ cachedBusinesses (stores s') <> cachedBusinesses (stores Demo.reloaded)
  /\ length (getCachedBusinesses (stores s')) = 1%nat
  /\ length (getCachedBusinesses (stores Demo.reloaded)) = 2%nat.
Proof.
  repeat split; try reflexivity.
  intros Heq.
  assert (H : cachedBusinesses
                (stores (snd (on_change Demo.decode
                                (Fulfilled (mkDataVersion 1 1 "B")) 2000
                                Demo.delete_unseen Demo.reloaded))) !! "3"
              = cachedBusinesses (stores Demo.reloaded) !! "3")
    by (rewrite Heq; reflexivity).
  vm_compute in H. discriminate H.
Qed.

(** * The service worker beyond single requests *)

Import Lifecycle.

Lemma caches_get_update (name n : string) (f : Cache -> Cache)
  (caches : CacheStorage) :
  caches_get (caches_update n f caches) name
  = if (n =? name)%string then Some (f (default [] (caches_get caches n)))
    else caches_get caches name.
Proof.
  induction caches as [|[m c] rest IH]; simpl.
  - destruct (n =? name)%string; reflexivity.
  - destruct (m =? n)%string eqn:E; simpl.
    + apply String.eqb_eq in E. subst m.
      destruct (n =? name)%string; reflexivity.
    + rewrite IH. destruct (n =? name)%string eqn:En.
      * apply String.eqb_eq in En. subst name. rewrite E. reflexivity.
      * reflexivity.
Qed.

Lemma cache_match_url (c : Cache) (r1 r2 : Request) :
  url r1 = url r2 -> cache_match c r1 = cache_match c r2.
Proof.
  intros H. induction c as [|[u r] rest IH]; simpl; [reflexivity|].
  rewrite H, IH. reflexivity.
Qed.

Lemma caches_match_url (caches : CacheStorage) (r1 r2 : Request) :
  url r1 = url r2 -> caches_match caches r1 = caches_match caches r2.
Proof.
  intros H. induction caches as [|[n c] rest IH]; simpl; [reflexivity|].
  rewrite (cache_match_url c r1 r2 H), IH. reflexivity.
Qed.

Lemma caches_match_update_miss (name : string) (request : Request)
  (response : Response) (caches : CacheStorage) :
  caches_match caches request = None ->
  caches_match (caches_update name (cache_put request response) caches)
    request = Some response.
Proof.
  induction caches as [|[n c] rest IH]; simpl; intros Hmiss.
  - rewrite url_eqb_refl. reflexivity.
  - destruct (cache_match c request) eqn:Ec; [discriminate|].
    destruct (n =? name)%string; simpl.
    + rewrite cache_match_put_same. reflexivity.
    + rewrite Ec. auto.
Qed.

Lemma caches_match_update_other (name : string) (other request : Request)
  (response : Response) (caches : CacheStorage) :
  url_eqb (url other) (url request) = false ->
  caches_match (caches_update name (cache_put other response) caches) request
  = caches_match caches request.
Proof.
  intros Hne. induction caches as [|[n c] rest IH]; simpl.
  - rewrite Hne. reflexivity.
  - destruct (n =? name)%string; simpl.
    + rewrite cache_match_put_other by exact Hne. reflexivity.
    + rewrite IH. reflexivity.
Qed.

Lemma stored_in_caches_match (name : string) (caches : CacheStorage)
  (request : Request) (response : Response) :
  stored_in name caches request = Some response ->
  exists found, caches_match caches request = Some found.
Proof.
  unfold stored_in. induction caches as [|[n c] rest IH]; simpl.
  - discriminate.
  - destruct (cache_match c request) as [r|] eqn:Ec; [eauto|].
    destruct (n =? name)%string; [congruence | exact IH].
Qed.

(** The caches a trace leaves behind, by the one write it may hold. *)
Lemma handled_cases (caches : CacheStorage) (net : Network)
  (request : Request) :
  handled caches (net, request) = caches
  \/ exists response,
       net request = Fulfilled response /\ status response = 200
       /\ intercepted request = true
       /\ (network_first (url request) = true
           \/ caches_match caches request = None)
       /\ handled caches (net, request)
          = caches_update RUNTIME_CACHE (cache_put request response) caches.
Proof.
  unfold handled, on_fetch, intercepted, write_through, caches_after. simpl.
  destruct (method request =? "GET")%string; simpl; [|auto].
  destruct (includes (origin (url request)) "supabase.co"); simpl; [auto|].
  destruct (network_first (url request)) eqn:Enf.
  - destruct (net request) as [response|]; simpl; [|auto].
    destruct (status response =? 200) eqn:E; simpl; [|auto].
    right. exists response. apply Z.eqb_eq in E. auto 10.
  - destruct (caches_match caches request) eqn:Em; simpl; [auto|].
    destruct (net request) as [response|]; simpl; [|auto].
    destruct (status response =? 200) eqn:E; simpl; [|auto].
    right. exists response. apply Z.eqb_eq in E. auto 10.
Qed.

(** X1. The fetch handler writes to the runtime cache only: the precache
    and every other cache are, once a request is handled, what they were
    before. *)
Theorem fetch_leaves_other_caches (caches : CacheStorage) (net : Network)
  (request : Request) (name : string) :
  name <> RUNTIME_CACHE ->
  caches_get (handled caches (net, request)) name = caches_get caches name.
Proof.
  intros Hname.
  destruct (handled_cases caches net request)
    as [-> | (response & _ & _ & _ & _ & ->)]; [reflexivity|].
  rewrite caches_get_update.
  destruct (RUNTIME_CACHE =? name)%string eqn:E; [|reflexivity].
  apply String.eqb_eq in E. congruence.
Qed.

Lemma fetch_leaves_other_caches_witness :
  caches_get (handled Samples.fresh (Samples.online, Samples.logo)) CACHE_NAME
  = caches_get Samples.fresh CACHE_NAME.
Proof.
  apply (fetch_leaves_other_caches Samples.fresh Samples.online Samples.logo
           CACHE_NAME).
  discriminate.
Defined.

(** X2. Whatever the handler writes to a cache answers a GET request whose
    origin is not the data backend's: responses to other methods and to
    backend requests are never stored. *)
Theorem cached_requests_are_app_gets (caches : CacheStorage) (net : Network)
  (request : Request) (name : string) (rq : Request) (rs : Response) :
  In (name, rq, rs) (puts (on_fetch caches net request)) ->
  method rq = "GET" /\ includes (origin (url rq)) "supabase.co" = false.
Proof.
  unfold on_fetch.
  destruct (method request =? "GET")%string eqn:Eg; simpl; [|tauto].
  destruct (includes (origin (url request)) "supabase.co") eqn:Es;
    simpl; [tauto|].
  apply String.eqb_eq in Eg.
  assert (Hw : forall response,
             In (name, rq, rs) (puts (write_through request response)) ->
             method rq = "GET"
             /\ includes (origin (url rq)) "supabase.co" = false).
  { intros response. rewrite puts_write_through.
    destruct (status response =? 200); simpl; [|tauto].
    intros [[= _ <- _]|[]]. auto. }
  destruct (network_first (url request)).
  - destruct (net request) as [response|]; simpl; [apply Hw | tauto].
  - destruct (caches_match caches request); simpl; [tauto|].
    destruct (net request) as [response|]; simpl; [apply Hw | tauto].
Qed.

Lemma cached_requests_are_app_gets_witness :
  method Samples.logo = "GET"
  /\ includes (origin (url Samples.logo)) "supabase.co" = false.
Proof.
  apply (cached_requests_are_app_gets Samples.fresh Samples.online
           Samples.logo RUNTIME_CACHE Samples.logo Samples.image).
  simpl. auto.
Defined.

(** X3. The handler sends at most one request to the network, the very
    request of the event, and settles [respondWith] exactly once when it
    takes the request over, never otherwise. *)
Theorem one_fetch_one_answer (caches : CacheStorage) (net : Network)
  (request : Request) :
  (length (fetches (on_fetch caches net request)) <= 1)%nat
  /\ (forall sent, In sent (fetches (on_fetch caches net request)) ->
                   sent = request)
  /\ length (answers (on_fetch caches net request))
     = (if intercepted request then 1 else 0)%nat.
Proof.
  unfold on_fetch, intercepted, write_through.
  destruct (method request =? "GET")%string; simpl;
    [|split; [lia | split; [tauto | reflexivity]]].
  destruct (includes (origin (url request)) "supabase.co"); simpl;
    [split; [lia | split; [tauto | reflexivity]]|].
  destruct (network_first (url request)), (caches_match caches request),
    (net request) as [response|]; simpl;
    try destruct (status response =? 200); simpl;
    (split; [lia | split; [|reflexivity]]);
    first [ intros sent [<-|[]]; reflexivity | intros sent [] ].
Qed.

(** X4. On the network-first path a response from the network is the
    answer, whatever its status and whatever the caches hold: no cache is
    consulted, so an HTTP error page is passed on even when a good copy is
    cached. *)
Theorem network_first_prefers_network (caches : CacheStorage) (net : Network)
  (request : Request) (response : Response) :
  intercepted request = true ->
  network_first (url request) = true ->
  net request = Fulfilled response ->
  answer (on_fetch caches net request) = Some (Fulfilled (Some response))
  /\ lookups (on_fetch caches net request) = [].
Proof.
  unfold intercepted, on_fetch, write_through.
  intros Hi Hnf Hnet. apply andb_true_iff in Hi as [Hget Hs].
  apply negb_true_iff in Hs. rewrite Hget, Hs, Hnf, Hnet. simpl.
  destruct (status response =? 200); auto.
Qed.

Lemma network_first_prefers_network_witness :
  answer (on_fetch Samples.visited Samples.gone Samples.bundle)
  = Some (Fulfilled (Some Samples.missing))
  /\ lookups (on_fetch Samples.visited Samples.gone Samples.bundle) = [].
Proof.
  apply (network_first_prefers_network Samples.visited Samples.gone
           Samples.bundle Samples.missing); reflexivity.
Defined.

(** X5. Write-through then fallback: once a network-first request was
    answered by the network with status 200 and the write has landed, the
    same request is answered with that response when the network is down. *)
Theorem network_first_round_trip (caches : CacheStorage) (net later : Network)
  (request : Request) (response : Response) (reason : string) :
  intercepted request = true ->
  network_first (url request) = true ->
  runtime_holds_dynamic caches = true ->
  net request = Fulfilled response ->
  status response = 200 ->
  later request = Rejected reason ->
  answer (on_fetch (handled caches (net, request)) later request)
  = Some (Fulfilled (Some response)).
Proof.
  intros Hi Hnf Hshape Hnet H200 Hlater.
  pose proof Hi as Hi'. unfold intercepted in Hi'.
  apply andb_true_iff in Hi' as [Hget Hs]. apply negb_true_iff in Hs.
  apply String.eqb_eq in Hget.
  rewrite (network_first_offline _ later request reason) by assumption.
  simpl. do 2 f_equal.
  apply caches_match_runtime; [|exact Hnf|].
  - apply (on_fetch_shape caches net request Hshape).
  - unfold handled, on_fetch, write_through, caches_after. simpl.
    rewrite Hget, Hs, Hnf, Hnet, H200. simpl.
    rewrite stored_in_update. apply cache_match_put_same.
Qed.

Lemma network_first_round_trip_witness :
  answer (on_fetch (handled Samples.fresh
                      (fun _ => Fulfilled Samples.script, Samples.bundle))
                   Samples.offline Samples.bundle)
  = Some (Fulfilled (Some Samples.script)).
Proof.
  apply (network_first_round_trip Samples.fresh
           (fun _ => Fulfilled Samples.script) Samples.offline
           Samples.bundle Samples.script "Failed to fetch"); reflexivity.
Defined.

(** X6. A static asset that was not cached and came back with status 200
    is, once the write has landed, answered from the cache without any
    request to the network, whether the network is up or down. *)
Theorem cache_first_round_trip (caches : CacheStorage) (net later : Network)
  (request : Request) (response : Response) :
  intercepted request = true ->
  network_first (url request) = false ->
  caches_match caches request = None ->
  net request = Fulfilled response ->
  status response = 200 ->
  on_fetch (handled caches (net, request)) later request
  = [CachesMatch request; Respond (Fulfilled (Some response))].
Proof.
  intros Hi Hnf Hmiss Hnet H200.
  unfold intercepted in Hi.
  apply andb_true_iff in Hi as [Hget Hs]. apply negb_true_iff in Hs.
  assert (Hnow : caches_match (handled caches (net, request)) request
                 = Some response).
  { unfold handled, on_fetch, write_through, caches_after. simpl.
    rewrite Hget, Hs, Hnf, Hmiss, Hnet, H200. simpl.
    apply caches_match_update_miss. exact Hmiss. }
  unfold on_fetch at 1. rewrite Hget, Hs, Hnf, Hnow. reflexivity.
Qed.

Lemma cache_first_round_trip_witness :
  on_fetch (handled Samples.fresh (Samples.online, Samples.logo))
    Samples.offline Samples.logo
  = [CachesMatch Samples.logo; Respond (Fulfilled (Some Samples.image))].
Proof.
  apply (cache_first_round_trip Samples.fresh Samples.online Samples.offline
           Samples.logo Samples.image); reflexivity.
Defined.

Lemma handled_keeps_static_hit (caches : CacheStorage)
  (ev : Network * Request) (request : Request) (cached : Response) :
  network_first (url request) = false ->
  caches_match caches request = Some cached ->
  caches_match (handled caches ev) request = Some cached.
Proof.
  intros Hnf Hhit. destruct ev as [net other].
  destruct (handled_cases caches net other)
    as [-> | (response & _ & _ & _ & Hwhy & ->)]; [exact Hhit|].
  rewrite caches_match_update_other; [exact Hhit|].
  destruct (url_eqb (url other) (url request)) eqn:E; [|reflexivity].
  apply url_eqb_eq in E. destruct Hwhy as [Hother | Hmiss].
  - rewrite E in Hother. congruence.
  - rewrite (caches_match_url caches other request E) in Hmiss. congruence.
Qed.

(** X7. A cached static asset is never refreshed: after any run of fetch
    events, whatever the network returned in them, a cache-first request
    that had a cached response is still answered with that same response
    and without a request to the network. *)
Theorem cached_static_is_pinned (caches : CacheStorage)
  (events : list (Network * Request)) (net : Network) (request : Request)
  (cached : Response) :
  intercepted request = true ->
  network_first (url request) = false ->
  caches_match caches request = Some cached ->
  on_fetch (serve caches events) net request
  = [CachesMatch request; Respond (Fulfilled (Some cached))].
Proof.
  intros Hi Hnf Hhit.
  assert (Hstill : caches_match (serve caches events) request = Some cached).
  { unfold serve. revert caches Hhit.
    induction events as [|ev rest IH]; intros caches Hhit; simpl.
    - exact Hhit.
    - apply IH. apply handled_keeps_static_hit; assumption. }
  unfold intercepted in Hi.
  apply andb_true_iff in Hi as [Hget Hs]. apply negb_true_iff in Hs.
  unfold on_fetch. rewrite Hget, Hs, Hnf, Hstill. reflexivity.
Qed.

Lemma cached_static_is_pinned_witness :
  on_fetch
    (serve Samples.visited
       [(Samples.online, Samples.logo);
        (Samples.online, mkRequest "GET" (mkURL Samples.app "/" ""));
        (Samples.gone, Samples.bundle)])
    Samples.online (mkRequest "GET" (mkURL Samples.app "/" ""))
  = [CachesMatch (mkRequest "GET" (mkURL Samples.app "/" ""));
     Respond (Fulfilled (Some Samples.shell))].
Proof.
  apply (cached_static_is_pinned Samples.visited); reflexivity.
Defined.

(** X10. Activation by lookup: a cache called [CACHE_NAME] or
    [RUNTIME_CACHE] is found afterwards exactly as before, and no cache of
    another name is found at all. *)
Theorem activate_by_name (caches : CacheStorage) (name : string) :
  caches_get (on_activate caches) name
  = if current name then caches_get caches name else None.
Proof.
  rewrite on_activate_keeps_current.
  induction caches as [|[n c] rest IH]; simpl.
  - destruct (current name); reflexivity.
  - destruct (current n) eqn:En; simpl.
    + destruct (n =? name)%string eqn:E; [|exact IH].
      apply String.eqb_eq in E. subst n. rewrite En. reflexivity.
    + rewrite IH. destruct (n =? name)%string eqn:E; [|reflexivity].
      apply String.eqb_eq in E. subst n. rewrite En. reflexivity.
Qed.

(** Activating twice is activating once. *)
Lemma activate_idempotent (caches : CacheStorage) :
  on_activate (on_activate caches) = on_activate caches.
Proof.
  rewrite !on_activate_keeps_current.
  induction caches as [|[n c] rest IH]; simpl; [reflexivity|].
  destruct (current n) eqn:En; simpl; rewrite ?En, IH; reflexivity.
Qed.

(** ** Installation *)

Lemma fetch_all_entries (net : Network) (urls : list URL)
  (entries : list (Request * Response)) :
  fetch_all net urls = Some entries ->
  forall e, In e entries ->
            fst e = GET (url (fst e)) /\ net (fst e) = Fulfilled (snd e).
Proof.
  revert entries. induction urls as [|u rest IH]; simpl; intros entries H.
  - injection H as <-. intros e [].
  - destruct (net (mkRequest "GET" u)) as [response|] eqn:Hnet; [|discriminate].
    destruct (addable response); [|discriminate].
    destruct (fetch_all net rest) as [tail|]; [|discriminate].
    injection H as <-. intros e [<- | He]; [auto | eauto].
Qed.

Lemma fetch_all_succeeds (net : Network) (urls : list URL) :
  (forall u, In u urls ->
             exists r, net (GET u) = Fulfilled r /\ addable r = true) ->
  exists entries, fetch_all net urls = Some entries.
Proof.
  induction urls as [|u rest IH]; simpl; intros Hall; [eauto|].
  destruct (Hall u (or_introl eq_refl)) as (r & Hr & Hok).
  unfold GET in Hr. rewrite Hr, Hok.
  destruct IH as [tail ->]; [auto|]. simpl. eauto.
Qed.

Lemma fetch_all_fails (net : Network) (urls : list URL) (u : URL) :
  In u urls ->
  (forall r, net (GET u) = Fulfilled r -> addable r = false) ->
  fetch_all net urls = None.
Proof.
  intros Hin Hbad. induction urls as [|v rest IH]; simpl; [destruct Hin|].
  destruct Hin as [-> | Hin].
  - unfold GET in Hbad. destruct (net (mkRequest "GET" u)) as [r|];
      [rewrite (Hbad r eq_refl)|]; reflexivity.
  - rewrite (IH Hin).
    destruct (net (mkRequest "GET" v)) as [r|]; [|reflexivity].
    destruct (addable r); reflexivity.
Qed.

Lemma put_all_match (entries : list (Request * Response)) (c : Cache)
  (request : Request) (response : Response) :
  (forall e, In e entries -> url (fst e) = url request ->
             snd e = response) ->
  (exists e, In e entries /\ url (fst e) = url request)
  \/ cache_match c request = Some response ->
  cache_match (put_all entries c) request = Some response.
Proof.
  unfold put_all. revert c.
  induction entries as [|e rest IH]; simpl; intros c Hsame Hsome.
  - destruct Hsome as [(e & [] & _) | Hc]. exact Hc.
  - apply IH; [auto|].
    rewrite cache_match_put.
    destruct (url_eqb (url (fst e)) (url request)) eqn:E.
    + right. apply url_eqb_eq in E. rewrite (Hsame e); auto.
    + destruct Hsome as [(e' & [<- | He'] & Hurl) | Hc]; [|eauto|auto].
      rewrite Hurl, url_eqb_refl in E. discriminate.
Qed.

Lemma caches_match_open (name : string) (caches : CacheStorage)
  (request : Request) :
  caches_match (caches_update name (fun c => c) caches) request
  = caches_match caches request.
Proof.
  induction caches as [|[n c] rest IH]; simpl; [reflexivity|].
  destruct (n =? name)%string; simpl; [reflexivity|].
  rewrite IH. reflexivity.
Qed.

(** X8. When every asset of [PRECACHE_ASSETS] can be fetched with an ok
    status other than 206, installation stores for each of them the
    response the network gave, and a later request for it is answered from
    a cache without going to the network, so the application shell opens
    offline. *)
Theorem installed_shell_is_served (self_origin : string) (net later : Network)
  (caches : CacheStorage) (u : URL) (response : Response) :
  includes self_origin "supabase.co" = false ->
  (forall v, In v (PRECACHE_ASSETS self_origin) ->
             exists r, net (GET v) = Fulfilled r
                       /\ ok r = true /\ status r <> 206) ->
  In u (PRECACHE_ASSETS self_origin) ->
  net (GET u) = Fulfilled response ->
  stored_in CACHE_NAME (on_install self_origin net caches) (GET u)
  = Some response
  /\ exists found,
       on_fetch (on_install self_origin net caches) later (GET u)
       = [CachesMatch (GET u); Respond (Fulfilled (Some found))].
Proof.
  intros Hself Hall Hin Hnet.
  assert (Hadd : forall v, In v (PRECACHE_ASSETS self_origin) ->
                   exists r, net (GET v) = Fulfilled r /\ addable r = true).
  { intros v Hv. destruct (Hall v Hv) as (r & Hr & Hok & H206).
    exists r. split; [exact Hr|]. unfold addable. rewrite Hok. simpl.
    apply negb_true_iff, Z.eqb_neq. exact H206. }
  destruct (fetch_all_succeeds net _ Hadd) as [entries Hentries].
  assert (Hstored : stored_in CACHE_NAME (on_install self_origin net caches)
                      (GET u) = Some response).
  { unfold on_install. rewrite Hentries, stored_in_update.
    apply put_all_match.
    - intros e He Hurl.
      destruct (fetch_all_entries net _ entries Hentries e He) as [Hget Hr].
      change (url (GET u)) with u in Hurl.
      rewrite Hget, Hurl, Hnet in Hr. injection Hr. auto.
    - left. apply fetch_all_urls in Hentries.
      rewrite <- Hentries in Hin. apply in_map_iff in Hin as (e & He & Hine).
      exists e. auto. }
  split; [exact Hstored|].
  destruct (stored_in_caches_match _ _ _ _ Hstored) as [found Hfound].
  exists found. unfold on_fetch. simpl.
  assert (Hs : includes (origin u) "supabase.co" = false
               /\ network_first u = false).
  { simpl in Hin.
    destruct Hin as [<-|[<-|[<-|[<-|[<-|[<-|[]]]]]]]; simpl; auto. }
  destruct Hs as [-> ->]. rewrite Hfound. reflexivity.
Qed.

Lemma installed_shell_is_served_witness :
  stored_in CACHE_NAME (on_install Samples.app Samples.online [])
    (GET (mkURL Samples.app "/index.html" ""))
  = Some Samples.image
  /\ exists found,
       on_fetch (on_install Samples.app Samples.online []) Samples.offline
         (GET (mkURL Samples.app "/index.html" ""))
       = [CachesMatch (GET (mkURL Samples.app "/index.html" ""));
          Respond (Fulfilled (Some found))].
Proof.
  apply (installed_shell_is_served Samples.app Samples.online Samples.offline
           [] (mkURL Samples.app "/index.html" "") Samples.image).
  - reflexivity.
  - intros v _. exists Samples.image.
    split; [reflexivity | split; [reflexivity | discriminate]].
  - simpl. auto.
  - reflexivity.
Defined.

(** X9. Installation is all or nothing: if a single asset of
    [PRECACHE_ASSETS] cannot be fetched, or comes back with a status that
    is not ok, nothing is stored, every request finds in the caches what it
    found before, and the precache exists, possibly empty. *)
Theorem failed_install_stores_nothing (self_origin : string) (net : Network)
  (caches : CacheStorage) (u : URL) :
  In u (PRECACHE_ASSETS self_origin) ->
  (forall r, net (GET u) = Fulfilled r -> ok r = false) ->
  (forall request,
     caches_match (on_install self_origin net caches) request
     = caches_match caches request)
  /\ caches_get (on_install self_origin net caches) CACHE_NAME
     = Some (default [] (caches_get caches CACHE_NAME)).
Proof.
  intros Hin Hbad. unfold on_install.
  assert (Hrefused : forall r, net (GET u) = Fulfilled r ->
                               addable r = false).
  { intros r Hr. unfold addable. rewrite (Hbad r Hr). reflexivity. }
  rewrite (fetch_all_fails net _ u Hin Hrefused). split.
  - intros request. apply caches_match_open.
  - rewrite caches_get_update, String.eqb_refl. reflexivity.
Qed.

Lemma failed_install_stores_nothing_witness :
  (forall request,
     caches_match (on_install Samples.app Samples.offline []) request
     = caches_match [] request)
  /\ caches_get (on_install Samples.app Samples.offline []) CACHE_NAME
     = Some (default [] (caches_get [] CACHE_NAME)).
Proof.
  apply (failed_install_stores_nothing Samples.app Samples.offline []
           (mkURL "https://cdn.tailwindcss.com" "/3.4.17" "")).
  - simpl. auto.
  - discriminate.
Defined.

(** A partial response is refused like a failure: one asset answered with
    status 206 and nothing is stored. *)
Lemma partial_content_fails_install (self_origin : string) (net : Network)
  (caches : CacheStorage) (u : URL) (body : string) :
  In u (PRECACHE_ASSETS self_origin) ->
  net (GET u) = Fulfilled (mkResponse 206 body) ->
  forall request,
    caches_match (on_install self_origin net caches) request
    = caches_match caches request.
Proof.
  intros Hin Hnet request. unfold on_install.
  rewrite (fetch_all_fails net _ u Hin); [apply caches_match_open|].
  intros r Hr. rewrite Hnet in Hr. injection Hr as <-. reflexivity.
Qed.

(** * The page's text helpers *)

Import Text.


(** X12. A number of exactly ten units is shown as [+91], a space, its
    first five units, a space and its last five: nothing of the number is
    lost, and the two halves put together are the number. *)
Theorem formatPhoneNumber_keeps_digits (phoneNumber : JSString) :
  length phoneNumber = 10%nat ->
  let shown := formatPhoneNumber phoneNumber in
  length shown = 15%nat
  /\ firstn 4 shown = lit "+91 "
  /\ nth_error shown 9 = Some 32%N
  /\ firstn 5 (skipn 4 shown) ++ skipn 10 shown = phoneNumber.
Proof.
  intros Hlen.
  do 11 (destruct phoneNumber as [|? phoneNumber]; try discriminate Hlen).
  repeat split.
Qed.

Lemma formatPhoneNumber_keeps_digits_witness :
  length (formatPhoneNumber (lit "9876543210")) = 15%nat
  /\ firstn 4 (formatPhoneNumber (lit "9876543210")) = lit "+91 "
  /\ nth_error (formatPhoneNumber (lit "9876543210")) 9 = Some 32%N
  /\ firstn 5 (skipn 4 (formatPhoneNumber (lit "9876543210")))
     ++ skipn 10 (formatPhoneNumber (lit "9876543210"))
     = lit "9876543210".
Proof.
  exact (formatPhoneNumber_keeps_digits (lit "9876543210") eq_refl).
Defined.

(** ** The services field of the form *)

Lemma split_without_sep (sep : N) (s : JSString) :
  existsb (N.eqb sep) s = false -> split sep s = [s].
Proof.
  induction s as [|c rest IH]; simpl; [reflexivity|].
  intros H. apply orb_false_iff in H as [Hc Hrest].
  rewrite N.eqb_sym in Hc. rewrite Hc, (IH Hrest). reflexivity.
Qed.

Lemma split_app (sep : N) (s rest : JSString) :
  existsb (N.eqb sep) s = false ->
  split sep (s ++ sep :: rest) = s :: split sep rest.
Proof.
  induction s as [|c s' IH]; simpl.
  - rewrite N.eqb_refl. reflexivity.
  - intros H. apply orb_false_iff in H as [Hc Hrest].
    rewrite N.eqb_sym in Hc. rewrite Hc, (IH Hrest). reflexivity.
Qed.

Lemma tidy_parts (s : JSString) :
  tidy s = true ->
  existsb (N.eqb comma) s = false
  /\ (exists c r, s = c :: r /\ is_space c = false)
  /\ (exists c r, rev s = c :: r /\ is_space c = false).
Proof.
  unfold tidy. intros H.
  apply andb_true_iff in H as [H Hcomma].
  apply andb_true_iff in H as [Hhead Hlast].
  apply negb_true_iff in Hcomma. split; [exact Hcomma|]. split.
  - destruct s as [|c r]; [discriminate|].
    apply negb_true_iff in Hhead. eauto.
  - destruct (rev s) as [|c r]; [discriminate|].
    apply negb_true_iff in Hlast. eauto.
Qed.

Lemma trim_tidy (s : JSString) : tidy s = true -> trim s = s.
Proof.
  intros H. destruct (tidy_parts s H) as (_ & (c & r & -> & Hc) & Hlast).
  destruct Hlast as (c' & r' & Hrev & Hc').
  unfold trim. simpl trimStart at 2. rewrite Hc, Hrev. simpl.
  rewrite Hc'. rewrite <- Hrev. apply rev_involutive.
Qed.

Lemma trim_space_tidy (s : JSString) :
  tidy s = true -> trim (32%N :: s) = s.
Proof.
  intros H. rewrite <- (trim_tidy s H) at 2. reflexivity.
Qed.

Lemma split_join_tidy (piece : JSString) (rest : list JSString) :
  forallb tidy (piece :: rest) = true ->
  split comma (join (lit ", ") (piece :: rest))
  = piece :: map (cons 32%N) rest.
Proof.
  revert piece. induction rest as [|next rest IH]; intros piece H.
  - simpl in H. rewrite andb_true_r in H.
    apply split_without_sep. apply (tidy_parts piece H).
  - change (forallb tidy (piece :: next :: rest))
      with (tidy piece && forallb tidy (next :: rest)) in H.
    apply andb_true_iff in H as [Hpiece Hrest].
    change (join (lit ", ") (piece :: next :: rest))
      with (piece ++ comma :: 32%N :: join (lit ", ") (next :: rest)).
    rewrite split_app by apply (tidy_parts piece Hpiece).
    change (split comma (32%N :: join (lit ", ") (next :: rest)))
      with (match split comma (join (lit ", ") (next :: rest)) with
            | p :: ps => (32%N :: p) :: ps
            | [] => [[32%N]]
            end).
    rewrite (IH next Hrest). reflexivity.
Qed.

(** X13. A list of services survives the edit form: shown joined by a comma
    and a space and read back by [handleSubmit], it is the same list,
    provided each service is not empty, holds no comma and has no white
    space at its ends. *)
Theorem services_round_trip (services : list JSString) :
  forallb tidy services = true ->
  submitted_services (Some (services_field (Some services))) = services.
Proof.
  intros H. destruct services as [|piece rest]; [reflexivity|].
  unfold submitted_services, services_field.
  rewrite (split_join_tidy piece rest H).
  apply andb_true_iff in H as [Hpiece Hrest]. simpl.
  rewrite (trim_tidy piece Hpiece).
  destruct (tidy_parts piece Hpiece) as (_ & (c & r & -> & _) & _). simpl.
  f_equal. induction rest as [|next rest IH]; simpl; [reflexivity|].
  simpl in Hrest. apply andb_true_iff in Hrest as [Hnext Hrest].
  rewrite (trim_space_tidy next Hnext).
  destruct (tidy_parts next Hnext) as (_ & (c' & r' & -> & _) & _). simpl.
  f_equal. apply IH. exact Hrest.
Qed.

Lemma services_round_trip_witness :
  submitted_services
    (Some (services_field (Some [lit "home delivery"; lit "repairs"])))
  = [lit "home delivery"; lit "repairs"].
Proof.
  apply (services_round_trip [lit "home delivery"; lit "repairs"]).
  reflexivity.
Defined.

Lemma trimStart_head (s : JSString) :
  trimStart s = []
  \/ exists c r, trimStart s = c :: r /\ is_space c = false.
Proof.
  induction s as [|c rest IH]; simpl; [auto|].
  destruct (is_space c) eqn:E; [exact IH | eauto].
Qed.

Lemma trimStart_suffix (s : JSString) :
  exists pre, s = pre ++ trimStart s.
Proof.
  induction s as [|c rest [pre IH]]; simpl.
  - exists []. reflexivity.
  - destruct (is_space c).
    + exists (c :: pre). simpl. f_equal. exact IH.
    + exists []. reflexivity.
Qed.

Lemma split_pieces_without_sep (sep : N) (s : JSString) :
  forallb (fun piece => negb (existsb (N.eqb sep) piece)) (split sep s)
  = true.
Proof.
  induction s as [|c rest IH]; simpl; [reflexivity|].
  destruct (c =? sep)%N eqn:E; [exact IH|].
  destruct (split sep rest) as [|piece pieces]; simpl in *.
  - rewrite N.eqb_sym, E. reflexivity.
  - rewrite N.eqb_sym, E. exact IH.
Qed.

Lemma trim_tidy_or_empty (s : JSString) :
  existsb (N.eqb comma) s = false ->
  trim s = [] \/ tidy (trim s) = true.
Proof.
  intros Hcomma. unfold trim.
  destruct (trimStart_suffix s) as [pre Hs].
  destruct (trimStart_suffix (rev (trimStart s))) as [pre' Hu].
  destruct (trimStart_head (rev (trimStart s)))
    as [-> | (c & r & Ht & Hc)]; [left; reflexivity | right].
  assert (Hu' : trimStart s = rev (c :: r) ++ rev pre').
  { rewrite <- rev_app_distr, <- Ht, <- Hu, rev_involutive. reflexivity. }
  rewrite Ht. unfold tidy. rewrite rev_involutive, Hc. simpl negb at 2.
  rewrite andb_true_r.
  assert (Hin : forall x, In x (rev (c :: r)) -> In x s).
  { intros x Hx. rewrite Hs, Hu'. apply in_or_app. right.
    apply in_or_app. left. exact Hx. }
  apply andb_true_iff. split.
  - destruct (rev (c :: r)) as [|h t] eqn:Er.
    + apply (f_equal (@length N)) in Er. rewrite length_rev in Er.
      discriminate.
    + destruct (trimStart_head s) as [He | (h' & t' & Hh & Hsp)].
      * rewrite He in Hu'. discriminate.
      * rewrite Hh in Hu'. simpl in Hu'. injection Hu' as -> _.
        rewrite Hsp. reflexivity.
  - apply negb_true_iff. destruct (existsb _ (rev (c :: r))) eqn:Ex;
      [|reflexivity].
    apply existsb_exists in Ex as (x & Hx & Hxc).
    assert (existsb (N.eqb comma) s = true)
      by (apply existsb_exists; eauto).
    congruence.
Qed.

(** X14. Whatever is typed into the services field, every service
    [handleSubmit] reads from it is tidy: never empty, without a comma, and
    without white space at its ends. *)
Theorem submitted_services_tidy (field : option JSString) :
  forallb tidy (submitted_services field) = true.
Proof.
  destruct field as [text|]; [|reflexivity]. unfold submitted_services.
  pose proof (split_pieces_without_sep comma text) as Hpieces.
  induction (split comma text) as [|piece pieces IH]; simpl; [reflexivity|].
  simpl in Hpieces. apply andb_true_iff in Hpieces as [Hpiece Hrest].
  apply negb_true_iff in Hpiece.
  destruct (trim_tidy_or_empty piece Hpiece) as [-> | Htidy]; simpl.
  - auto.
  - destruct (trim piece) as [|c r] eqn:E; simpl; [auto|].
    rewrite Htidy. simpl. auto.
Qed.

(** X15. Ticking a payment option that is not in the list and unticking it
    again gives the list back. *)
Theorem payment_tick_untick (value : string)
  (paymentOptions : option (list string)) :
  ~ In value (default [] paymentOptions) ->
  toggle_payment false value
    (Some (toggle_payment true value paymentOptions))
  = default [] paymentOptions.
Proof.
  unfold toggle_payment. intros Hnew.
  change (default [] (Some (default [] paymentOptions ++ [value])))
    with (default [] paymentOptions ++ [value]).
  rewrite List.filter_app. simpl. rewrite String.eqb_refl. simpl.
  rewrite app_nil_r.
  induction (default [] paymentOptions) as [|opt rest IH]; simpl;
    [reflexivity|].
  destruct (opt =? value)%string eqn:E.
  - apply String.eqb_eq in E. exfalso. apply Hnew. simpl. auto.
  - simpl. f_equal. apply IH. intros Hin. apply Hnew. simpl. auto.
Qed.

Lemma payment_tick_untick_witness :
  toggle_payment false "Card"
    (Some (toggle_payment true "Card" (Some ["UPI"; "Cash"])))
  = ["UPI"; "Cash"].
Proof.
  apply (payment_tick_untick "Card" (Some ["UPI"; "Cash"])).
  intros [H | [H | []]]; discriminate H.
Defined.

(** * Searching, counting and the assistant *)

Import Directory.

Lemma prefix_refl (s : string) : String.prefix s s = true.
Proof.
  induction s as [|c s IH]; simpl; [reflexivity|].
  destruct (ascii_dec c c); [exact IH | congruence].
Qed.

Lemma includes_refl (s : string) : includes s s = true.
Proof.
  pose proof (prefix_refl s) as H.
  destruct s; cbn [includes]; rewrite H; reflexivity.
Qed.

Section SearchFacts.

Variable toLowerCase : string -> string.

(** X16. A shop is always found by its exact name, and a business by its
    owner's exact name, whichever category is selected: the search term
    wins over the category. *)
Theorem search_finds_exact_name (businessData : BusinessData)
  (business : Business) (selectedCategory : option string) :
  In business (businesses businessData) ->
  (shopName business <> "" ->
   In business (filteredBusinesses toLowerCase businessData
                  (shopName business) selectedCategory))
  /\ (ownerName business <> "" ->
      In business (filteredBusinesses toLowerCase businessData
                     (ownerName business) selectedCategory)).
Proof.
  intros Hin. unfold filteredBusinesses, truthy. split; intros Hname.
  - destruct (shopName business =? "")%string eqn:E;
      [apply String.eqb_eq in E; contradiction|]. simpl.
    apply filter_In. split; [exact Hin|].
    rewrite includes_refl. reflexivity.
  - destruct (ownerName business =? "")%string eqn:E;
      [apply String.eqb_eq in E; contradiction|]. simpl.
    apply filter_In. split; [exact Hin|].
    rewrite includes_refl, orb_true_r. reflexivity.
Qed.

End SearchFacts.

Lemma search_finds_exact_name_witness :
  In (Demo.shop "2" "Dairy")
     (filteredBusinesses (fun s => s) (App.businessData Demo.session)
        "Dairy" (Some "hardware")).
Proof.
  apply (search_finds_exact_name (fun s => s) (App.businessData Demo.session)
           (Demo.shop "2" "Dairy") (Some "hardware")).
  - simpl. auto.
  - discriminate.
Defined.

Lemma businessCounts_fold (businesses : list Business)
  (acc counts : gmap string Z) :
  fold_left (fun acc business =>
               match acc with
               | Some counts =>
                   if inherited (category business) then None
                   else Some (<[category business :=
                                  default 0 (counts !! category business) + 1]>
                                counts)
               | None => None
               end) businesses (Some acc) = Some counts ->
  forall c : string,
    default 0 (counts !! c)
    = default 0 (acc !! c)
      + Z.of_nat (length (List.filter
                            (fun b => (category b =? c)%string) businesses)).
Proof.
  revert acc. induction businesses as [|b rest IH]; simpl; intros acc H c.
  - injection H as <-. lia.
  - destruct (inherited (category b)).
    + exfalso. clear -H. induction rest as [|? ? IHr]; simpl in H;
        [discriminate | auto].
    + rewrite (IH _ H c).
      destruct (category b =? c)%string eqn:E.
      * apply String.eqb_eq in E. subst c.
        rewrite lookup_insert_eq. simpl length. simpl default at 1. lia.
      * apply String.eqb_neq in E.
        rewrite lookup_insert_ne by exact E. lia.
Qed.

Lemma businessCounts_defined (businesses : list Business)
  (acc : gmap string Z) :
  forallb (fun b => negb (inherited (category b))) businesses = true ->
  exists counts,
    fold_left (fun acc business =>
                 match acc with
                 | Some counts =>
                     if inherited (category business) then None
                     else Some (<[category business :=
                                    default 0 (counts !! category business)
                                    + 1]> counts)
                 | None => None
                 end) businesses (Some acc) = Some counts.
Proof.
  revert acc. induction businesses as [|b rest IH]; simpl; intros acc H.
  - eauto.
  - apply andb_true_iff in H as [Hb Hrest].
    apply negb_true_iff in Hb. rewrite Hb. apply IH. exact Hrest.
Qed.

(** X17. When no category is named like a property every object inherits,
    [businessCounts] is a table of counts, and the count it holds for a
    category (none standing for zero) is the number of businesses of that
    category.  For a category that is not the empty string this is the
    number of businesses listed when the category is selected and nothing
    is searched; selecting the empty string filters nothing. *)
Theorem counts_match_category_list (toLowerCase : string -> string)
  (businessData : BusinessData) :
  forallb (fun b => negb (inherited (category b))) (businesses businessData)
  = true ->
  exists counts,
    businessCounts (businesses businessData) = Some counts
    /\ forall selected,
         default 0 (counts !! selected)
         = Z.of_nat (length (List.filter
                               (fun b => (category b =? selected)%string)
                               (businesses businessData)))
         /\ filteredBusinesses toLowerCase businessData "" (Some selected)
            = if truthy selected
              then List.filter (fun b => (category b =? selected)%string)
                               (businesses businessData)
              else businesses businessData.
Proof.
  intros Hnames. unfold businessCounts.
  destruct (businessCounts_defined _ ∅ Hnames) as [counts Hcounts].
  exists counts. split; [exact Hcounts|].
  intros selected. split.
  - rewrite (businessCounts_fold _ ∅ counts Hcounts selected).
    rewrite lookup_empty. reflexivity.
  - unfold filteredBusinesses. simpl.
    destruct (truthy selected); reflexivity.
Qed.

Lemma counts_match_category_list_witness :
  exists counts,
    businessCounts (businesses (App.businessData Demo.session)) = Some counts
    /\ forall selected,
         default 0 (counts !! selected)
         = Z.of_nat (length (List.filter
                               (fun b => (category b =? selected)%string)
                               (businesses (App.businessData Demo.session))))
         /\ filteredBusinesses (fun s => s) (App.businessData Demo.session)
              "" (Some selected)
            = if truthy selected
              then List.filter (fun b => (category b =? selected)%string)
                               (businesses (App.businessData Demo.session))
              else businesses (App.businessData Demo.session).
Proof.
  apply (counts_match_category_list (fun s => s)
           (App.businessData Demo.session)).
  reflexivity.
Defined.

(** ** The assistant's answers *)

Lemma businessMap_fold (businesses : list Business)
  (m : gmap string Business) (key : string) (business : Business) :
  fold_left (fun m b => <[id b := b]> m) businesses m !! key = Some business ->
  (In business businesses /\ id business = key) \/ m !! key = Some business.
Proof.
  revert m. induction businesses as [|b rest IH]; simpl; intros m H.
  - auto.
  - destruct (IH _ H) as [[Hin Hid] | Hm]; [auto|].
    destruct (decide (id b = key)) as [Heq | Hne].
    + rewrite <- Heq, lookup_insert_eq in Hm. injection Hm as <-. auto.
    + rewrite lookup_insert_ne in Hm by exact Hne. auto.
Qed.

Lemma businessMap_defined (businesses : list Business)
  (m : gmap string Business) (key : string) :
  (exists b, In b businesses /\ id b = key) \/ is_Some (m !! key) ->
  exists found,
    fold_left (fun m b => <[id b := b]> m) businesses m !! key = Some found
    /\ (id found = key \/ m !! key = Some found).
Proof.
  revert m. induction businesses as [|b rest IH]; simpl; intros m H.
  - destruct H as [(b & [] & _) | [found Hfound]]. eauto.
  - destruct (decide (id b = key)) as [Heq | Hne].
    + destruct (IH (<[id b := b]> m)) as (found & Hfound & Hwhy).
      { right. rewrite Heq, lookup_insert_eq. eauto. }
      exists found. split; [exact Hfound|]. left.
      destruct Hwhy as [Hid | Hm]; [exact Hid|].
      rewrite Heq, lookup_insert_eq in Hm. injection Hm as <-. exact Heq.
    + destruct (IH (<[id b := b]> m)) as (found & Hfound & Hwhy).
      { destruct H as [(b' & [<- | Hin] & Hid) | Hm];
          [contradiction | eauto |].
        right. rewrite lookup_insert_ne by exact Hne. exact Hm. }
      exists found. split; [exact Hfound|].
      rewrite lookup_insert_ne in Hwhy by exact Hne. exact Hwhy.
Qed.

(** X18. The assistant can only show businesses of the directory: a card
    rendered for an entry of its answer is a business of the list whose id
    is the entry's [businessId], and an entry naming an id the list does
    not hold renders nothing. *)
Theorem ai_card_is_listed (businesses : list Business)
  (result : AiResultItem) (business : Business) :
  render_result businesses result = Some (AiBusinessResultCard business) ->
  In business businesses
  /\ businessId result = Some (id business)
  /\ type result = "business".
Proof.
  unfold render_result, truthy_opt.
  destruct (type result =? "business")%string eqn:Et; simpl.
  - destruct (businessId result) as [key|]; simpl.
    + destruct (truthy key).
      * destruct (businessMap businesses !! key) as [found|] eqn:Em;
          [|discriminate].
        intros [= <-]. apply businessMap_fold in Em as [[Hin Hid] | Hempty].
        -- apply String.eqb_eq in Et. subst key. auto.
        -- rewrite lookup_empty in Hempty. discriminate.
      * destruct (type result =? "text")%string, (content result) as [t|];
          simpl; try discriminate.
        destruct (truthy t); discriminate.
    + destruct (type result =? "text")%string, (content result) as [t|];
        simpl; try discriminate.
      destruct (truthy t); discriminate.
  - destruct (type result =? "text")%string, (content result) as [t|];
      simpl; try discriminate.
    destruct (truthy t); discriminate.
Qed.

Lemma ai_card_is_listed_witness :
  In (Demo.shop "2" "Dairy") (businesses (App.businessData Demo.session))
  /\ businessId (mkAiResultItem "business" (Some "2") None)
     = Some (id (Demo.shop "2" "Dairy"))
  /\ type (mkAiResultItem "business" (Some "2") None) = "business".
Proof.
  apply (ai_card_is_listed (businesses (App.businessData Demo.session))
           (mkAiResultItem "business" (Some "2") None)
           (Demo.shop "2" "Dairy")).
  reflexivity.
Defined.

(** X19. An entry of type [business] naming the id of a listed business is
    always rendered, as a card of a business with that id. *)
Theorem ai_listed_id_renders (businesses : list Business)
  (business : Business) (text : option string) :
  In business businesses ->
  id business <> "" ->
  exists shown,
    render_result businesses
      (mkAiResultItem "business" (Some (id business)) text)
    = Some (AiBusinessResultCard shown)
    /\ id shown = id business.
Proof.
  intros Hin Hid. unfold render_result, truthy_opt, truthy. simpl.
  destruct (id business =? "")%string eqn:E;
    [apply String.eqb_eq in E; contradiction|]. simpl.
  destruct (businessMap_defined businesses ∅ (id business))
    as (found & Hfound & Hwhy); [eauto|].
  unfold businessMap. rewrite Hfound. exists found. split; [reflexivity|].
  destruct Hwhy as [Hfid | Hempty]; [exact Hfid|].
  rewrite lookup_empty in Hempty. discriminate.
Qed.

Lemma ai_listed_id_renders_witness :
  exists shown,
    render_result (businesses (App.businessData Demo.session))
      (mkAiResultItem "business" (Some "1") None)
    = Some (AiBusinessResultCard shown)
    /\ id shown = "1".
Proof.
  apply (ai_listed_id_renders (businesses (App.businessData Demo.session))
           (Demo.shop "1" "Kirana") None).
  - simpl. auto.
  - discriminate.
Defined.

(** X20. Every configuration error [handleQuery] throws itself (no model,
    no key for the model's backend, a model of no known backend) is shown
    to the user word for word. *)
Theorem configuration_errors_shown (AI_MODEL GOOGLE_API_KEY MISTRAL_API_KEY
                                    : option string)
  (fallback message : string) :
  choose_provider AI_MODEL GOOGLE_API_KEY MISTRAL_API_KEY = inl message ->
  shown_error fallback (Some message) = message.
Proof.
  unfold choose_provider.
  destruct AI_MODEL as [modelName|]; [|intros [= <-]; reflexivity].
  destruct (negb (truthy modelName)); [intros [= <-]; reflexivity|].
  destruct (startsWith modelName "gemini" || startsWith modelName "gemma").
  - destruct (truthy_opt GOOGLE_API_KEY); [discriminate|].
    intros [= <-]. reflexivity.
  - destruct (startsWith modelName "mistral"
              || startsWith modelName "pixtral").
    + destruct (truthy_opt MISTRAL_API_KEY); [discriminate|].
      intros [= <-]. reflexivity.
    + intros [= <-]. reflexivity.
Qed.

Lemma configuration_errors_shown_witness :
  shown_error "fallback"
    (Some "Unsupported model configured in AI_MODEL: llama-3.")
  = "Unsupported model configured in AI_MODEL: llama-3.".
Proof.
  apply (configuration_errors_shown (Some "llama-3") None None).
  reflexivity.
Defined.

(** X21. With the build's definition of [AI_MODEL] the assistant never
    reports a missing model; and when the environment names none, it uses
    the Google backend with [gemini-1.5-flash] if a Google key is set and
    otherwise asks for that key. *)
Theorem build_always_names_a_model (env_AI_MODEL GOOGLE_API_KEY
                                    MISTRAL_API_KEY : option string) :
  choose_provider (Some (define_AI_MODEL env_AI_MODEL)) GOOGLE_API_KEY
    MISTRAL_API_KEY
  <> inl "AI model is not configured. Please set the AI_MODEL environment variable."
  /\ (truthy_opt env_AI_MODEL = false ->
      choose_provider (Some (define_AI_MODEL env_AI_MODEL)) GOOGLE_API_KEY
        MISTRAL_API_KEY
      = if truthy_opt GOOGLE_API_KEY
        then inr (Google (default "" GOOGLE_API_KEY) "gemini-1.5-flash")
        else inl "Google API key is not configured. Please set the GOOGLE_API_KEY environment variable for this model.").
Proof.
  assert (Hnamed : truthy (define_AI_MODEL env_AI_MODEL) = true).
  { unfold define_AI_MODEL. destruct env_AI_MODEL as [value|]; [|reflexivity].
    destruct (truthy value) eqn:E; [exact E | reflexivity]. }
  split.
  - unfold choose_provider. rewrite Hnamed. simpl.
    destruct (startsWith _ "gemini" || startsWith _ "gemma").
    + destruct (truthy_opt GOOGLE_API_KEY); discriminate.
    + destruct (startsWith _ "mistral" || startsWith _ "pixtral").
      * destruct (truthy_opt MISTRAL_API_KEY); discriminate.
      * discriminate.
  - intros Hunset.
    assert (Hdefault : define_AI_MODEL env_AI_MODEL = "gemini-1.5-flash").
    { unfold define_AI_MODEL. destruct env_AI_MODEL as [value|];
        [|reflexivity]. simpl in Hunset. rewrite Hunset. reflexivity. }
    rewrite Hdefault. reflexivity.
Qed.

Lemma build_always_names_a_model_witness :
  choose_provider (Some (define_AI_MODEL (Some ""))) (Some "key") None
  = inr (Google "key" "gemini-1.5-flash").
Proof.
  apply (build_always_names_a_model (Some "") (Some "key") None).
  reflexivity.
Defined.

(** * Loading, saving and deleting *)

Import Page.

Section LoadFacts.

Variable sortByName : list Category -> list Category.

Local Abbreviation loadData := (loadData sortByName).

Local Ltac unfold_load :=
  unfold Page.loadData, load_fails, finally, try_catch, bind, await, ret,
    modify; simpl.

Local Ltac load_cases cached sync param user admin :=
  destruct cached as [[[|?b0 ?bs] ?cs]|]; simpl;
  destruct sync as [[[] ?fromCache ?cats ?buss]|]; simpl;
  destruct param as [?wanted|]; simpl;
  try match goal with |- context [truthy ?w] => destruct (truthy w) end;
  simpl;
  try match goal with
      |- context [List.find ?f ?l] => destruct (List.find f l)
      end;
  simpl;
  destruct user as [[[?uid]|]|]; simpl;
  try match goal with
      |- context [admin ?u] => destruct (admin u) as [[]|] eqn:?Eadmin
      end;
  simpl.

(** X22. [loadData] always completes and always takes the spinner away.
    A failing read of the cached collections is silent; the failure of any
    other step (the import, the synchronisation, the session check) is
    logged and raises the loading alert, once. *)
Theorem loadData_settles (env : Surroundings) (s : State) :
  fst (loadData env s) = Fulfilled tt
  /\ isLoading (snd (loadData env s)) = false
  /\ alerts (snd (loadData env s))
     = alerts s ++ (if load_fails env then [LoadFailed] else []).
Proof.
  destruct env as [module cached sync param user admin]. unfold_load.
  destruct module as [[]|]; simpl; [|auto].
  load_cases cached sync param user admin;
    repeat split; rewrite ?app_nil_r; reflexivity.
Qed.

(** X23. What the page shows after [loadData], once the cache module is
    loaded: the synchronised data when the synchronisation reports a
    change; otherwise, also when the synchronisation fails, the cached
    data if there is at least one cached business; otherwise what it showed
    before.  A failure of the session check changes none of this. *)
Theorem loadData_view (env : Surroundings) (s : State) :
  cacheModule env = Fulfilled tt ->
  businessData (snd (loadData env s))
  = let from_cache :=
        match cachedData env with
        | Fulfilled (b :: bs, cs) =>
            mkBusinessData (sortByName cs) (b :: bs)
        | _ => businessData s
        end in
    match syncResult env with
    | Fulfilled result =>
        if is_no_change (action result) then from_cache
        else mkBusinessData (sortByName (result_categories result))
                            (result_businesses result)
    | Rejected _ => from_cache
    end.
Proof.
  destruct env as [module cached sync param user admin]. simpl.
  intros ->. unfold_load.
  load_cases cached sync param user admin; reflexivity.
Qed.

(** X24. [loadData] signs nobody in on its own: the current user changes
    only to a user the session check returned and the backend confirmed as
    an administrator. *)
Theorem loadData_admin_only (env : Surroundings) (s : State) :
  currentUser (snd (loadData env s)) <> currentUser s ->
  exists u,
    getCurrentUser env = Fulfilled (Some u)
    /\ isUserAdmin env (user_id u) = Fulfilled true
    /\ currentUser (snd (loadData env s)) = Some u.
Proof.
  destruct env as [module cached sync param user admin]. unfold_load.
  destruct module as [[]|]; simpl; [|tauto].
  load_cases cached sync param user admin; try tauto;
    intros _; exists (mkUser uid); auto.
Qed.

(** The shared link: the detail view [loadData] schedules is that of
    the first business of the synchronisation's result whose id is the
    [businessId] of the page's URL; without such a business none is
    scheduled. *)
Lemma loadData_deep_link (env : Surroundings) (s : State) :
  timers (snd (loadData env s))
  = timers s
    ++ match cacheModule env, syncResult env, businessIdParam env with
       | Fulfilled _, Fulfilled result, Some businessId =>
           if truthy businessId
           then match List.find (fun b => (id b =? businessId)%string)
                                (result_businesses result) with
                | Some business => [business]
                | None => []
                end
           else []
       | _, _, _ => []
       end.
Proof.
  destruct env as [module cached sync param user admin]. unfold_load.
  destruct module as [[]|]; simpl; [|rewrite app_nil_r; reflexivity].
  load_cases cached sync param user admin;
    rewrite ?app_nil_r; reflexivity.
Qed.

End LoadFacts.

Lemma loadData_view_witness :
  businessData (snd (loadData (fun cs => cs) Demo.offline_start Demo.page))
  = mkBusinessData [] [App.Demo.shop "1" "Kirana"].
Proof.
  apply (loadData_view (fun cs => cs) Demo.offline_start Demo.page).
  reflexivity.
Defined.

Lemma loadData_admin_only_witness :
  exists u,
    getCurrentUser Demo.admin_visit = Fulfilled (Some u)
    /\ isUserAdmin Demo.admin_visit (user_id u) = Fulfilled true
    /\ currentUser (snd (loadData (fun cs => cs) Demo.admin_visit Demo.page))
       = Some u.
Proof.
  apply (loadData_admin_only (fun cs => cs) Demo.admin_visit Demo.page).
  discriminate.
Defined.

(** * The change handler beyond single events *)

Section StreamFacts.

Context {RawRecord : Type}.
Variable dbBusinessToBusiness : RawRecord -> Business.

Local Abbreviation on_change := (App.on_change dbBusinessToBusiness).

(** X29. An INSERT event delivered twice shows the new business twice: each
    delivery puts it at the head of the list shown, while the Entity Cache,
    keyed by id, holds after the second delivery what it held after the
    first. *)
Theorem insert_twice_shows_twice (payload : Payload) (raw : RawRecord)
  (s : Session) (v1 v2 : Settled DataVersion) (t1 t2 : Z) :
  eventType payload = "INSERT" ->
  new payload = Some raw ->
  let once := snd (on_change v1 t1 payload s) in
  let twice := snd (on_change v2 t2 payload once) in
  businesses (App.businessData twice)
  = dbBusinessToBusiness raw :: dbBusinessToBusiness raw
      :: businesses (App.businessData s)
  /\ cachedBusinesses (stores twice) = cachedBusinesses (stores once).
Proof.
  intros Hinsert Hnew. simpl. rewrite !on_change_unfold.
  unfold App.apply_change. rewrite Hinsert, Hnew. simpl.
  destruct v1, v2; simpl; rewrite insert_insert_eq; auto.
Qed.

(** X30. An INSERT followed by the DELETE of the same id undoes itself:
    when no business shown and no cached business carried that id, the
    list shown and the cached businesses are afterwards what they were. *)
Theorem insert_then_delete (inserted deleted : Payload) (raw : RawRecord)
  (s : Session) (v1 v2 : Settled DataVersion) (t1 t2 : Z) :
  eventType inserted = "INSERT" ->
  new inserted = Some raw ->
  eventType deleted = "DELETE" ->
  old deleted = Some (id (dbBusinessToBusiness raw)) ->
  (forall b, In b (businesses (App.businessData s)) ->
             id b <> id (dbBusinessToBusiness raw)) ->
  cachedBusinesses (stores s) !! id (dbBusinessToBusiness raw) = None ->
  let s' := snd (on_change v2 t2 deleted
                   (snd (on_change v1 t1 inserted s))) in
  App.businessData s' = App.businessData s
  /\ cachedBusinesses (stores s') = cachedBusinesses (stores s).
Proof.
  intros Hinsert Hnew Hdelete Hold Hview Hcache. simpl.
  rewrite !on_change_unfold. unfold App.apply_change.
  rewrite Hinsert, Hnew, Hdelete, Hold. simpl.
  destruct v1, v2; simpl; rewrite String.eqb_refl; simpl;
    rewrite (filter_none_removed _ _ Hview), (delete_insert_id _ _ _ Hcache);
    destruct (App.businessData s); auto.
Qed.

End StreamFacts.

Lemma insert_twice_shows_twice_witness :
  businesses
    (App.businessData
       (snd (App.on_change App.Demo.decode (Rejected "offline") 2
               (mkPayload "INSERT" (Some (App.Demo.shop "9" "Bakery")) None)
               (snd (App.on_change App.Demo.decode (Rejected "offline") 1
                       (mkPayload "INSERT"
                          (Some (App.Demo.shop "9" "Bakery")) None)
                       App.Demo.session)))))
  = [App.Demo.shop "9" "Bakery"; App.Demo.shop "9" "Bakery";
     App.Demo.shop "1" "Kirana"; App.Demo.shop "2" "Dairy"].
Proof.
  apply (insert_twice_shows_twice App.Demo.decode
           (mkPayload "INSERT" (Some (App.Demo.shop "9" "Bakery")) None)
           (App.Demo.shop "9" "Bakery") App.Demo.session);
    reflexivity.
Defined.

Lemma insert_then_delete_witness :
  App.businessData
    (snd (App.on_change App.Demo.decode (Rejected "offline") 2
            (mkPayload "DELETE" None (Some "9"))
            (snd (App.on_change App.Demo.decode (Rejected "offline") 1
                    (mkPayload "INSERT" (Some (App.Demo.shop "9" "Bakery"))
                       None)
                    App.Demo.session))))
  = App.businessData App.Demo.session.
Proof.
  apply (insert_then_delete App.Demo.decode
           (mkPayload "INSERT" (Some (App.Demo.shop "9" "Bakery")) None)
           (mkPayload "DELETE" None (Some "9"))
           (App.Demo.shop "9" "Bakery") App.Demo.session);
    try reflexivity.
  intros b [<- | [<- | []]]; discriminate.
Defined.

(** ** Saving *)

Local Ltac unfold_save :=
  unfold handleSaveBusiness, handleDeleteBusiness, handleDelete, reload,
    save_call, call, finally, throw, try_catch, bind, await, ret, modify;
  simpl.

(** X25. [handleSaveBusiness] always completes and always clears the
    saving flag; its first call is the write, an update for a business that
    has an id and an addition for one that has none; and it leaves the
    categories alone. *)
Theorem handleSaveBusiness_settles (backend : Backend)
  (businessToSave : Business) (s : State) :
  let s' := snd (handleSaveBusiness backend businessToSave s) in
  fst (handleSaveBusiness backend businessToSave s) = Fulfilled tt
  /\ isSaving s' = false
  /\ categories (businessData s') = categories (businessData s)
  /\ exists later, calls s' = calls s ++ save_call businessToSave :: later.
Proof.
  unfold_save.
  destruct (truthy (id businessToSave)); simpl;
    [destruct (updateBusiness backend businessToSave)
    |destruct (addBusiness backend businessToSave)]; simpl;
    try destruct (fetchBusinesses backend); simpl;
    repeat split; rewrite <- ?app_assoc; simpl; eauto.
Qed.

(** X26. A failed save keeps the form as it is: when the write or the
    reload after it is rejected, the businesses shown, the admin view and
    the business being edited are what they were, and the last dialog is
    the save error carrying the failure's message.  When it is the reload
    that fails, the success dialog has been shown before it. *)
Theorem handleSaveBusiness_failure (backend : Backend)
  (businessToSave : Business) (s : State) (message : string) :
  let write := if truthy (id businessToSave)
               then updateBusiness backend businessToSave
               else addBusiness backend businessToSave in
  let s' := snd (handleSaveBusiness backend businessToSave s) in
  write = Rejected message
  \/ (write = Fulfilled tt /\ fetchBusinesses backend = Rejected message) ->
  businessData s' = businessData s
  /\ adminView s' = adminView s
  /\ businessToEdit s' = businessToEdit s
  /\ alerts s'
     = alerts s
       ++ match write with
          | Rejected _ => []
          | Fulfilled _ =>
              [if truthy (id businessToSave) then Updated else Added]
          end
       ++ [SaveFailed message].
Proof.
  unfold_save.
  destruct (truthy (id businessToSave)); simpl;
    intros [-> | [-> ->]]; simpl; rewrite <- ?app_assoc; auto.
Qed.

Lemma handleSaveBusiness_failure_witness :
  alerts (snd (handleSaveBusiness Demo.half_down (App.Demo.shop "" "New")
                 Demo.page))
  = [Added; SaveFailed "offline"]
  /\ adminView (snd (handleSaveBusiness Demo.half_down
                       (App.Demo.shop "" "New") Demo.page))
     = Some add.
Proof.
  pose proof (handleSaveBusiness_failure Demo.half_down
                (App.Demo.shop "" "New") Demo.page "offline"
                (or_intror (conj eq_refl eq_refl))) as (_ & Hview & _ & Halerts).
  split; [exact Halerts | exact Hview].
Defined.

(** A successful save shows the businesses the backend returns after
    the write, goes back to the dashboard and forgets the business that was
    edited. *)
Lemma handleSaveBusiness_success (backend : Backend)
  (businessToSave : Business) (s : State) (fetched : list Business) :
  let write := if truthy (id businessToSave)
               then updateBusiness backend businessToSave
               else addBusiness backend businessToSave in
  let s' := snd (handleSaveBusiness backend businessToSave s) in
  write = Fulfilled tt ->
  fetchBusinesses backend = Fulfilled fetched ->
  businesses (businessData s') = fetched
  /\ adminView s' = Some dashboard
  /\ businessToEdit s' = None
  /\ calls s' = calls s ++ [save_call businessToSave; FetchBusinesses].
Proof.
  unfold_save.
  destruct (truthy (id businessToSave)); simpl;
    intros -> ->; simpl; rewrite <- ?app_assoc; auto.
Qed.

(** ** Deleting *)

(** X27. [handleDeleteBusiness] passes a failure on: when the deletion or
    the reload after it is rejected, the handler is rejected with the same
    message, the businesses shown are unchanged and no dialog is opened;
    when both succeed it shows the reloaded businesses. *)
Theorem handleDeleteBusiness_outcome (backend : Backend)
  (businessId : string) (s : State) :
  let s' := snd (handleDeleteBusiness backend businessId s) in
  match deleteBusiness backend businessId, fetchBusinesses backend with
  | Fulfilled _, Fulfilled fetched =>
      fst (handleDeleteBusiness backend businessId s) = Fulfilled tt
      /\ businesses (businessData s') = fetched
      /\ alerts s' = alerts s ++ [Deleted]
  | Rejected message, _ | Fulfilled _, Rejected message =>
      fst (handleDeleteBusiness backend businessId s) = Rejected message
      /\ businessData s' = businessData s
      /\ alerts s' = alerts s
  end.
Proof.
  unfold_save.
  destruct (deleteBusiness backend businessId) as [[]|]; simpl;
    [destruct (fetchBusinesses backend); simpl|]; auto.
Qed.

(** X28. The delete button of the edit list never lets a failure escape:
    with the page's [handleDeleteBusiness] behind it, [handleDelete] always
    completes and leaves no business marked as being deleted; a declined
    confirmation changes nothing and calls nothing; a failure opens the
    delete error dialog and keeps the businesses shown. *)
Theorem handleDelete_contains_failure (backend : Backend) (confirmed : bool)
  (businessId : string) (s : State) :
  let run := handleDelete (handleDeleteBusiness backend) confirmed
               businessId s in
  fst run = Fulfilled tt
  /\ (confirmed = false -> snd run = s)
  /\ (confirmed = true ->
      deletingId (snd run) = None
      /\ match deleteBusiness backend businessId, fetchBusinesses backend with
         | Fulfilled _, Fulfilled fetched =>
             businesses (businessData (snd run)) = fetched
             /\ alerts (snd run) = alerts s ++ [Deleted]
         | _, _ =>
             businessData (snd run) = businessData s
             /\ alerts (snd run) = alerts s ++ [DeleteFailed]
         end).
Proof.
  unfold_save. destruct confirmed; simpl.
  - destruct (deleteBusiness backend businessId) as [[]|]; simpl;
      [destruct (fetchBusinesses backend); simpl|];
      (split; [reflexivity | split; [discriminate | auto]]).
  - split; [reflexivity | split; [reflexivity | discriminate]].
Qed.

Lemma handleDelete_contains_failure_witness :
  snd (handleDelete (handleDeleteBusiness Demo.down) false "1" Demo.page)
  = Demo.page
  /\ alerts (snd (handleDelete (handleDeleteBusiness Demo.down) true "1"
                    Demo.page))
     = [DeleteFailed].
Proof.
  split.
  - apply (handleDelete_contains_failure Demo.down false "1" Demo.page).
    reflexivity.
  - apply (handleDelete_contains_failure Demo.down true "1" Demo.page).
    reflexivity.
Defined.
